(** * sender-service: the points-transfer orchestration, embedded in Rocq

    The development follows the Go packages of the repository:

    - [models]        (models/transfer.go): the records [Transfer],
                      [TransferRequest] and [User];
    - [repositories]  (repositories/transfer_repository.go): the table
                      [transfers] behind GORM;
    - [services]      (services/transfer_service.go): [InitiateTransfer],
                      [GetUserTransfers], [CompleteTransfer] and their helpers;
    - [handlers]      (the HTTP controller): [GetTransfers] and the JSON
                      rendering of a [Transfer].

    Everything outside the process (the database, the Auth service, the
    wall clock) is part of an explicit [World]; the Go methods become
    computations in a reader/state/error monad over it. *)

From Stdlib Require Import ZArith Lia.
From stdpp Require Import base strings list gmap sorting pretty.

Local Open Scope Z_scope.

(** ** Go's [int] and [time.Time] *)

(** [int] is 64 bits wide on the platforms the service targets; arithmetic
    wraps around in two's complement. *)
Definition int_min : Z := - 2 ^ 63.
Definition int_max : Z := 2 ^ 63 - 1.
Definition in_int (z : Z) : Prop := int_min <= z <= int_max.
Definition wrap (z : Z) : Z := (z + 2 ^ 63) mod 2 ^ 64 - 2 ^ 63.
Definition int_sub (a b : Z) : Z := wrap (a - b).

(** A [time.Time] is the number of nanoseconds since the Unix epoch, which
    is also what [UnixNano] returns. *)
Definition Time := Z.
Definition Nanosecond : Z := 1.
Definition Hour : Z := 3600 * 1000000000 * Nanosecond.
Definition Add (t : Time) (d : Z) : Time := t + d.

(** ** package models *)

Module Transfer.
Record t := mk {
  ID : string;
  SenderID : string;
  SenderEmail : string;
  ReceiverEmail : string;
  ReceiverName : string;
  Points : Z;
  Status : string;
  Token : string;
  ExpiresAt : Time;
  CreatedAt : Time;
  UpdatedAt : Time
}.

(** [transfer.Status = s] *)
Definition set_Status (s : string) (x : t) : t :=
  mk (ID x) (SenderID x) (SenderEmail x) (ReceiverEmail x) (ReceiverName x)
     (Points x) s (Token x) (ExpiresAt x) (CreatedAt x) (UpdatedAt x).

Definition set_UpdatedAt (u : Time) (x : t) : t :=
  mk (ID x) (SenderID x) (SenderEmail x) (ReceiverEmail x) (ReceiverName x)
     (Points x) (Status x) (Token x) (ExpiresAt x) (CreatedAt x) u.
End Transfer.

Module TransferRequest.
Record t := mk {
  ReceiverEmail : string;
  ReceiverName : string;
  Points : Z
}.
End TransferRequest.

Module User.
Record t := mk {
  ID : string;
  Email : string;
  Name : string;
  Points : Z
}.

Definition set_Points (p : Z) (u : t) : t := mk (ID u) (Email u) (Name u) p.
End User.

(** ** Errors *)

(** [New msg] is [errors.New(msg)]; the other constructors are the errors of
    the libraries underneath, which the service never lets through. *)
Inductive error :=
  | New (msg : string)
  | ErrRecordNotFound
  | ErrDuplicatedKey
  | ErrDatabase
  | ErrTransport.

Inductive result (A : Type) :=
  | Ok (a : A)
  | Err (e : error).
Arguments Ok {A} a.
Arguments Err {A} e.

(** ** The world outside the process *)

(** The calls that leave the process.  A [Faults] value says, for one
    invocation of a service method, which of them fail for reasons of their
    own (connection lost, malformed reply, ...). *)
Inductive Call :=
  | DbCreate | DbFind | DbFirst | DbSave
  | HttpGet | JsonDecode | HttpPut.

Definition Faults := Call -> bool.
Definition no_faults : Faults := fun _ => false.

(** What was sent out, in order. *)
Inductive Event :=
  | SqlInsert (x : Transfer.t)
  | SqlSelectBySender (senderID : string)
  | SqlSelectByID (transferID : string)
  | SqlUpdate (x : Transfer.t)
  | GetUser (userID : string)
  | PutPoints (userID : string) (points : Z)
  | GoSendTransferEmail (x : Transfer.t).

Record World := mkWorld {
  (** rows of the table [transfers], oldest insertion first *)
  transfers : list Transfer.t;
  (** whether the table carries the constraints declared by the gorm tags
      of [Transfer]: [primaryKey] on [id] and [uniqueIndex] on [token].
      [main] migrates the schema from the struct at start-up
      ([db.AutoMigrate(&models.Transfer{})]), so the table the service runs
      against has them: [indexed = true].  [false] stands for a table made
      some other way. *)
  indexed : bool;
  (** the accounts held by the Auth service, by user id *)
  users : gmap string User.t;
  (** the n-th call of [time.Now()] returns [clock n] *)
  clock : nat -> Time;
  ticks : nat;
  (** the outgoing calls so far, oldest first *)
  trace : list Event
}.

Definition set_transfers (l : list Transfer.t) (w : World) : World :=
  mkWorld l (indexed w) (users w) (clock w) (ticks w) (trace w).
Definition set_users (m : gmap string User.t) (w : World) : World :=
  mkWorld (transfers w) (indexed w) m (clock w) (ticks w) (trace w).
Definition set_ticks (n : nat) (w : World) : World :=
  mkWorld (transfers w) (indexed w) (users w) (clock w) n (trace w).
Definition log (e : Event) (w : World) : World :=
  mkWorld (transfers w) (indexed w) (users w) (clock w) (ticks w) (trace w ++ [e]).

(** ** The monad of service code *)

Definition M (A : Type) : Type := Faults -> World -> result A * World.

Definition ret {A} (a : A) : M A := fun _ w => (Ok a, w).
Definition fail {A} (e : error) : M A := fun _ w => (Err e, w).
Definition bind {A B} (c : M A) (k : A -> M B) : M B :=
  fun f w =>
    match c f w with
    | (Ok a, w') => k a f w'
    | (Err e, w') => (Err e, w')
    end.

Notation "'let*' x ':=' c 'in' k" := (bind c (fun x => k))
  (at level 10, x name, c at level 100, k at level 200).
Notation "'do' c 'in' k" := (bind c (fun _ => k))
  (at level 10, c at level 100, k at level 200).

(** [v, err := c; if err != nil { return errors.New(msg) }] *)
Definition or_else {A} (c : M A) (e : error) : M A :=
  fun f w =>
    match c f w with
    | (Ok a, w') => (Ok a, w')
    | (Err _, w') => (Err e, w')
    end.

(** A call whose [error] result is dropped on the floor. *)
Definition discard {A} (c : M A) : M unit :=
  fun f w => (Ok tt, snd (c f w)).

Definition lift {A} (r : result A) : M A := fun _ w => (r, w).
Definition emit (e : Event) : M unit := fun _ w => (Ok tt, log e w).
Definition fault (c : Call) : M bool := fun f w => (Ok (f c), w).
Definition get {A} (p : World -> A) : M A := fun _ w => (Ok (p w), w).
Definition modify (g : World -> World) : M unit := fun _ w => (Ok tt, g w).

(** [time.Now()] *)
Definition Now : M Time :=
  fun _ w => (Ok (clock w (ticks w)), set_ticks (S (ticks w)) w).

(** ** package repositories *)

Section repositories.
Import Transfer.

(** The row [x] collides with a stored row on a unique column. *)
Definition collides (x : Transfer.t) (rows : list Transfer.t) : bool :=
  existsb (fun r => String.eqb (ID r) (ID x) || String.eqb (Token r) (Token x)) rows.

(** [INSERT INTO transfers (...) VALUES (...)].  The service inserts only
    rows whose status it has set; the column default [pending] that the
    gorm tag gives to an empty status is not modelled. *)
Definition Create (x : Transfer.t) : M unit :=
  do emit (SqlInsert x) in
  let* broken := fault DbCreate in
  if broken then fail ErrDatabase else
  let* rows := get transfers in
  let* constrained := get indexed in
  if constrained && collides x rows then fail ErrDuplicatedKey
  else modify (set_transfers (rows ++ [x])).

(** [ORDER BY created_at DESC] *)
Definition newer_first (a b : Transfer.t) : Prop := CreatedAt b <= CreatedAt a.

#[global] Instance newer_first_dec : RelDecision newer_first.
Proof. intros a b. unfold newer_first. apply _. Defined.

(** [SELECT * FROM transfers WHERE sender_id = ? ORDER BY created_at DESC] *)
Definition FindBySenderID (senderID : string) : M (list Transfer.t) :=
  do emit (SqlSelectBySender senderID) in
  let* broken := fault DbFind in
  if broken then fail ErrDatabase else
  let* rows := get transfers in
  ret (merge_sort newer_first (filter (fun x => SenderID x = senderID) rows)).

(** [SELECT * FROM transfers WHERE id = ? LIMIT 1] *)
Definition FindByID (transferID : string) : M Transfer.t :=
  do emit (SqlSelectByID transferID) in
  let* broken := fault DbFirst in
  if broken then fail ErrDatabase else
  let* rows := get transfers in
  match find (fun r => String.eqb (ID r) transferID) rows with
  | Some x => ret x
  | None => fail ErrRecordNotFound
  end.

(** [UPDATE transfers SET ... WHERE id = ?].  GORM stamps the column
    [updated_at] of a saved row with the current time.  The service saves
    only rows it has just found under their id; what [Save] does with a row
    that no stored row shares the id of (it inserts it) is not modelled. *)
Definition Update (x : Transfer.t) : M unit :=
  let* now := Now in
  let x' := set_UpdatedAt now x in
  do emit (SqlUpdate x') in
  let* broken := fault DbSave in
  if broken then fail ErrDatabase else
  let* rows := get transfers in
  modify (set_transfers
            (map (fun r => if String.eqb (ID r) (ID x') then x' else r) rows)).
End repositories.

(** ** package services *)

Section services.

(** Service-to-service call [GET /users/:id] to the Auth service.  The
    service is taken at its contract: it looks the id up as it is given, a
    reply that says [success] carries the user, and balances fit an [int].
    Two behaviours of the code lie outside this model: an id with URL
    metacharacters is cut by the URL parser before the service sees it
    (the id is concatenated into the URL as it is), and a 200 reply that
    says [success] without data makes [getUser] return a nil user, which
    its callers dereference (a panic).  The properties that depend on what
    [getUser] returned say so in a hypothesis. *)
Definition getUser (userID : string) : M User.t :=
  do emit (GetUser userID) in
  let* broken := fault HttpGet in
  if broken then fail ErrTransport else
  let* accounts := get users in
  match accounts !! userID with
  | None => fail (New "user not found")
  | Some u =>
      let* garbled := fault JsonDecode in
      if garbled then fail (New "failed to get user data") else ret u
  end.

(** Service-to-service call [PUT /users/:id/points]: the body carries the
    new absolute balance. *)
Definition updateUserPoints (userID : string) (points : Z) : M unit :=
  do emit (PutPoints userID points) in
  let* broken := fault HttpPut in
  if broken then fail ErrTransport else
  let* accounts := get users in
  match accounts !! userID with
  | None => fail (New "failed to update points")
  | Some u => modify (set_users (<[userID := User.set_Points points u]> accounts))
  end.

Definition generateID : M string :=
  let* now := Now in ret ("transfer_" +:+ pretty now).

Definition generateToken : M string :=
  let* now := Now in ret ("token_" +:+ pretty now).

(** Business rules, in the order the code checks them. *)
Definition validateTransfer (sender : User.t) (req : TransferRequest.t) : result unit :=
  if User.Points sender <? TransferRequest.Points req then
    Err (New "insufficient points")
  else if String.eqb (User.Email sender) (TransferRequest.ReceiverEmail req) then
    Err (New "cannot transfer points to yourself")
  else if TransferRequest.Points req <=? 0 then
    Err (New "points must be greater than zero")
  else Ok tt.

Definition InitiateTransfer (senderID : string) (req : TransferRequest.t)
  : M Transfer.t :=
  let* sender := or_else (getUser senderID) (New "failed to get sender details") in
  do lift (validateTransfer sender req) in
  let* id := generateID in
  let* token := generateToken in
  let* expires := Now in
  let* created := Now in
  let* updated := Now in
  let transfer :=
    Transfer.mk id senderID (User.Email sender)
      (TransferRequest.ReceiverEmail req) (TransferRequest.ReceiverName req)
      (TransferRequest.Points req) "pending" token
      (Add expires (24 * Hour)) created updated in
  do or_else (Create transfer) (New "failed to create transfer") in
  (* the notification runs in a goroutine of its own; its outcome is only
     printed *)
  do emit (GoSendTransferEmail transfer) in
  ret transfer.

Definition GetUserTransfers (userID : string) : M (list Transfer.t) :=
  FindBySenderID userID.

Definition CompleteTransfer (transferID : string) : M unit :=
  let* transfer := or_else (FindByID transferID) (New "transfer not found") in
  let* sender :=
    or_else (getUser (Transfer.SenderID transfer)) (New "failed to get sender details") in
  if User.Points sender <? Transfer.Points transfer then
    let transfer := Transfer.set_Status "failed" transfer in
    do discard (Update transfer) in
    fail (New "sender no longer has sufficient points")
  else
    do or_else
         (updateUserPoints (Transfer.SenderID transfer)
            (int_sub (User.Points sender) (Transfer.Points transfer)))
         (New "failed to deduct points from sender") in
    let transfer := Transfer.set_Status "completed" transfer in
    do or_else (Update transfer) (New "failed to complete transfer") in
    ret tt.
End services.

(** ** package handlers *)

Set Warnings "-register-all".

(** JSON values as [encoding/json] produces them.  A [time.Time] is rendered
    as its RFC 3339 text, kept here as the instant it denotes. *)
Inductive json :=
  | JNull
  | JBool (b : bool)
  | JNumber (n : Z)
  | JString (s : string)
  | JTime (t : Time)
  | JArray (items : list json)
  | JObject (members : list (string * json)).

(** The value of member [key] of a JSON object. *)
Definition member (key : string) (v : json) : option json :=
  match v with
  | JObject members => snd <$> find (fun kv => String.eqb (fst kv) key) members
  | _ => None
  end.

Section handlers.

(** [json.Marshal] of a [models.Transfer]: one member per field, named by
    the field's [json] tag, in declaration order. *)
Definition Transfer_json (x : Transfer.t) : json :=
  JObject [
    ("id", JString (Transfer.ID x));
    ("sender_id", JString (Transfer.SenderID x));
    ("sender_email", JString (Transfer.SenderEmail x));
    ("receiver_email", JString (Transfer.ReceiverEmail x));
    ("receiver_name", JString (Transfer.ReceiverName x));
    ("points", JNumber (Transfer.Points x));
    ("status", JString (Transfer.Status x));
    ("token", JString (Transfer.Token x));
    ("expires_at", JTime (Transfer.ExpiresAt x));
    ("created_at", JTime (Transfer.CreatedAt x));
    ("updated_at", JTime (Transfer.UpdatedAt x))
  ].

Record Response := mkResponse { code : Z; body : json }.

Definition StatusOK : Z := 200.
Definition StatusInternalServerError : Z := 500.

(** [GET /transfers/:userId].  A [gin.H] is a Go map, which is marshalled
    with its keys sorted. *)
Definition GetTransfers (userID : string) (f : Faults) (w : World)
  : Response * World :=
  match GetUserTransfers userID f w with
  | (Ok transfers, w') =>
      (mkResponse StatusOK
         (JObject [("data", JArray (map Transfer_json transfers));
                   ("success", JBool true)]), w')
  | (Err _, w') =>
      (mkResponse StatusInternalServerError
         (JObject [("error", JString "Failed to fetch transfers");
                   ("success", JBool false)]), w')
  end.
End handlers.

(** ** Observations on a world *)

(** The row that [FindByID] reads for [transferID]. *)
Definition row (transferID : string) (w : World) : option Transfer.t :=
  find (fun r => String.eqb (Transfer.ID r) transferID) (transfers w).

(** The balance the Auth service holds for [userID]. *)
Definition balance (userID : string) (w : World) : option Z :=
  User.Points <$> users w !! userID.

(** The row carried by a statement that writes the table. *)
Definition written (e : Event) : option Transfer.t :=
  match e with
  | SqlInsert x | SqlUpdate x => Some x
  | _ => None
  end.

(** The event touches the sender's balance at the Auth service. *)
Definition touches_balance (e : Event) : bool :=
  match e with
  | GetUser _ | PutPoints _ _ => true
  | _ => false
  end.

(** The world once [CompleteTransfer] has looked up the row [x] under
    [transferID] and asked the Auth service for its sender. *)
Definition after_reads (transferID : string) (x : Transfer.t) (w : World) : World :=
  log (GetUser (Transfer.SenderID x)) (log (SqlSelectByID transferID) w).

(** The row [x] as [CompleteTransfer] saves it with status [s] at world [w]. *)
Definition saved (s : string) (x : Transfer.t) (w : World) : Transfer.t :=
  Transfer.set_UpdatedAt (clock w (ticks w)) (Transfer.set_Status s x).

(** The record [InitiateTransfer] builds for sender [u] when its first
    reading of the clock is the [n]-th: the id, the token, the expiry, the
    creation and the update time each come from a reading of their own. *)
Definition new_transfer (senderID : string) (u : User.t) (req : TransferRequest.t)
    (clk : nat -> Time) (n : nat) : Transfer.t :=
  Transfer.mk ("transfer_" +:+ pretty (clk n)) senderID (User.Email u)
    (TransferRequest.ReceiverEmail req) (TransferRequest.ReceiverName req)
    (TransferRequest.Points req) "pending" ("token_" +:+ pretty (clk (1 + n)%nat))
    (Add (clk (2 + n)%nat) (24 * Hour)) (clk (3 + n)%nat) (clk (4 + n)%nat).

(** [wrote Q w w']: from [w] to [w'] the trace only grew, every row carried
    by a writing statement of the growth satisfies [Q], and so does every
    row of the table that was not there before. *)
Definition wrote (Q : Transfer.t -> Prop) (w w' : World) : Prop :=
  (exists evs, trace w' = trace w ++ evs /\
               forall e x, e ∈ evs -> written e = Some x -> Q x) /\
  (forall x, x ∈ transfers w' -> x ∈ transfers w \/ Q x).

(** [c] takes every world to one related to it by [R]. *)
Definition along (R : relation World) {A} (c : M A) : Prop :=
  forall f w, R w (snd (c f w)).

(** The operations of the orchestrator, and histories of them. *)
Inductive operation :=
  | Initiate (senderID : string) (req : TransferRequest.t)
  | Complete (transferID : string)
  | ListForSender (senderID : string).

Definition run (op : operation) (f : Faults) (w : World) : World :=
  match op with
  | Initiate senderID req => snd (InitiateTransfer senderID req f w)
  | Complete transferID => snd (CompleteTransfer transferID f w)
  | ListForSender senderID => snd (GetUserTransfers senderID f w)
  end.

Fixpoint runs (history : list (operation * Faults)) (w : World) : World :=
  match history with
  | [] => w
  | (op, f) :: history => runs history (run op f w)
  end.

(** The statuses the code assigns. *)
Definition assigned (s : string) : Prop :=
  s = "pending" \/ s = "completed" \/ s = "failed".

(** ** Scenarios *)

Module Scenario.
Definition ann : User.t := User.mk "u1" "ann@example.org" "Ann" 100.

(** a clock that advances by one nanosecond between two readings *)
Definition ticking : nat -> Time := fun n => 1700000000000000000 + Z.of_nat n.
(** a clock too coarse to tell two readings apart *)
Definition coarse : nat -> Time := fun _ => 1700000000000000000.

Definition gift (status : string) (expires : Time) : Transfer.t :=
  Transfer.mk "transfer_1" "u1" "ann@example.org" "bob@example.org" "Bob" 30
    status "token_2" expires 1000 1000.

Definition world (rows : list Transfer.t) (ix : bool) (clk : nat -> Time) : World :=
  mkWorld rows ix {[ "u1" := ann ]} clk 0 [].

(** a pending offer of 30 points that is still open when the clock starts *)
Definition open_offer : World :=
  world [gift "pending" 1800000000000000000] true ticking.
(** the same offer, already completed *)
Definition settled_offer : World :=
  world [gift "completed" 1800000000000000000] true ticking.
(** a pending offer whose expiry passed long before the clock starts *)
Definition stale_offer : World :=
  world [gift "pending" 1600000000000000000] true ticking.
(** an offer of more points than Ann holds *)
Definition big_gift : Transfer.t :=
  Transfer.mk "transfer_9" "u1" "ann@example.org" "bob@example.org" "Bob" 160
    "pending" "token_9" 1800000000000000000 1000 1000.
Definition large_offer : World := world [big_gift] true ticking.

Definition to_bob (points : Z) : TransferRequest.t :=
  TransferRequest.mk "bob@example.org" "Bob" points.
Definition to_self (points : Z) : TransferRequest.t :=
  TransferRequest.mk "ann@example.org" "Ann" points.

Definition put_fails : Faults :=
  fun c => match c with HttpPut => true | _ => false end.
Definition save_fails : Faults :=
  fun c => match c with DbSave => true | _ => false end.
End Scenario.

(** * The rest of the packages *)

(** ** package repositories: lookup by claim token *)

(** [SELECT * FROM transfers WHERE token = ? LIMIT 1].  The orchestrator
    never issues this query; the trace, which lists the orchestrator's
    calls, has no entry for it. *)
Definition FindByToken (token : string) : M Transfer.t :=
  let* broken := fault DbFirst in
  if broken then fail ErrDatabase else
  let* rows := get transfers in
  match find (fun r => String.eqb (Transfer.Token r) token) rows with
  | Some x => ret x
  | None => fail ErrRecordNotFound
  end.

(** ** package handlers: the two POST routes *)

(** [err.Error()].  The texts of [errors.New] are the ones in the sources,
    the two GORM errors carry GORM's texts; [ErrDatabase] and
    [ErrTransport] stand for whole families of errors and are given a
    family name. *)
Definition Error (e : error) : string :=
  match e with
  | New msg => msg
  | ErrRecordNotFound => "record not found"
  | ErrDuplicatedKey => "duplicated key not allowed"
  | ErrDatabase => "database error"
  | ErrTransport => "transport error"
  end.

Definition StatusCreated : Z := 201.
Definition StatusBadRequest : Z := 400.
Definition StatusUnauthorized : Z := 401.

Module handlers.

(** [POST /transfer].  [bound] is what [c.ShouldBindJSON(&req)] made of the
    body (the request, or the error of the binding), [userID] the value of
    the header [X-User-ID], empty when the header is absent. *)
Definition InitiateTransfer (bound : result TransferRequest.t) (userID : string)
    (f : Faults) (w : World) : Response * World :=
  match bound with
  | Err e =>
      (mkResponse StatusBadRequest
         (JObject [("details", JString (Error e));
                   ("error", JString "Invalid request data");
                   ("success", JBool false)]), w)
  | Ok req =>
      if String.eqb userID "" then
        (mkResponse StatusUnauthorized
           (JObject [("error", JString "User authentication required");
                     ("success", JBool false)]), w)
      else
        match InitiateTransfer userID req f w with
        | (Err e, w') =>
            (mkResponse StatusBadRequest
               (JObject [("error", JString (Error e)); ("success", JBool false)]), w')
        | (Ok transfer, w') =>
            (mkResponse StatusCreated
               (JObject [("data", Transfer_json transfer);
                         ("message", JString "Transfer initiated successfully");
                         ("success", JBool true)]), w')
        end
  end.

(** [POST /transfer/:id/complete] *)
Definition CompleteTransfer (transferID : string) (f : Faults) (w : World)
    : Response * World :=
  match CompleteTransfer transferID f w with
  | (Err e, w') =>
      (mkResponse StatusBadRequest
         (JObject [("error", JString (Error e)); ("success", JBool false)]), w')
  | (Ok _, w') =>
      (mkResponse StatusOK
         (JObject [("message", JString "Transfer completed successfully");
                   ("success", JBool true)]), w')
  end.

End handlers.

(** ** package config *)

Module config.

Module DatabaseConfig.
Record t := mk {
  Host : string; Port : string; Name : string;
  User : string; Password : string; SSLMode : string
}.
End DatabaseConfig.

Module EmailConfig.
Record t := mk {
  GmailAddress : string; GmailAppPass : string; From : string;
  SMTPHost : string; SMTPPort : string
}.
End EmailConfig.

Module FrontendConfig.
Record t := mk { URL : string }.
End FrontendConfig.

Module CorsConfig.
Record t := mk { AllowedOrigins : string }.
End CorsConfig.

Record Config := mkConfig {
  Port : string;
  Environment : string;
  Database : DatabaseConfig.t;
  AuthService : string;
  Email : EmailConfig.t;
  Frontend : FrontendConfig.t;
  Cors : CorsConfig.t
}.

(** The environment of the process, once [godotenv.Load] has added what the
    file [.env] defines. *)
Definition Env := gmap string string.

(** [os.Getenv]: the empty string for a variable that is not set. *)
Definition Getenv (key : string) (env : Env) : string := default "" (env !! key).

Definition getEnv (key defaultValue : string) (env : Env) : string :=
  let value := Getenv key env in
  if String.eqb value "" then defaultValue else value.

Definition LoadConfig (env : Env) : Config :=
  mkConfig
    (getEnv "PORT" "8002" env)
    (getEnv "ENVIRONMENT" "development" env)
    (DatabaseConfig.mk
       (getEnv "DB_HOST" "localhost" env)
       (getEnv "DB_PORT" "5432" env)
       (getEnv "DB_NAME" "point_transfer" env)
       (getEnv "DB_USER" "point_user" env)
       (getEnv "DB_PASSWORD" "password123" env)
       (getEnv "DB_SSLMODE" "disable" env))
    (getEnv "AUTH_SERVICE_URL" "http://localhost:8001" env)
    (EmailConfig.mk
       (getEnv "GMAIL_ADDRESS" "" env)
       (getEnv "GMAIL_APP_PASSWORD" "" env)
       (getEnv "EMAIL_FROM" "noreply@pointtransfer.com" env)
       (getEnv "SMTP_HOST" "smtp.gmail.com" env)
       (getEnv "SMTP_PORT" "587" env))
    (FrontendConfig.mk (getEnv "FRONTEND_URL" "http://localhost:3000" env))
    (CorsConfig.mk (getEnv "ALLOWED_ORIGINS" "http://localhost:3000" env)).

(** The settings as a list, with the names of their variables. *)
Definition settings (c : Config) : list (string * string) :=
  [("PORT", Port c); ("ENVIRONMENT", Environment c);
   ("DB_HOST", DatabaseConfig.Host (Database c));
   ("DB_PORT", DatabaseConfig.Port (Database c));
   ("DB_NAME", DatabaseConfig.Name (Database c));
   ("DB_USER", DatabaseConfig.User (Database c));
   ("DB_PASSWORD", DatabaseConfig.Password (Database c));
   ("DB_SSLMODE", DatabaseConfig.SSLMode (Database c));
   ("AUTH_SERVICE_URL", AuthService c);
   ("GMAIL_ADDRESS", EmailConfig.GmailAddress (Email c));
   ("GMAIL_APP_PASSWORD", EmailConfig.GmailAppPass (Email c));
   ("EMAIL_FROM", EmailConfig.From (Email c));
   ("SMTP_HOST", EmailConfig.SMTPHost (Email c));
   ("SMTP_PORT", EmailConfig.SMTPPort (Email c));
   ("FRONTEND_URL", FrontendConfig.URL (Frontend c));
   ("ALLOWED_ORIGINS", CorsConfig.AllowedOrigins (Cors c))].

End config.

(** ** Vocabulary for the properties of the whole service *)

(** Every way [CompleteTransfer] can go, with the result and the world it
    ends in. *)
Inductive completion (transferID : string) (f : Faults) (w : World)
  : result unit * World -> Prop :=
  | completion_not_found e :
      fst (FindByID transferID f w) = Err e ->
      completion transferID f w
        (Err (New "transfer not found"), log (SqlSelectByID transferID) w)
  | completion_no_sender x e :
      fst (FindByID transferID f w) = Ok x ->
      fst (getUser (Transfer.SenderID x) f w) = Err e ->
      completion transferID f w
        (Err (New "failed to get sender details"), after_reads transferID x w)
  | completion_short x u :
      fst (FindByID transferID f w) = Ok x ->
      fst (getUser (Transfer.SenderID x) f w) = Ok u ->
      User.Points u < Transfer.Points x ->
      completion transferID f w
        (Err (New "sender no longer has sufficient points"),
         snd (Update (Transfer.set_Status "failed" x) f (after_reads transferID x w)))
  | completion_unpaid x u :
      fst (FindByID transferID f w) = Ok x ->
      fst (getUser (Transfer.SenderID x) f w) = Ok u ->
      Transfer.Points x <= User.Points u ->
      f HttpPut = true ->
      completion transferID f w
        (Err (New "failed to deduct points from sender"),
         log (PutPoints (Transfer.SenderID x)
                (int_sub (User.Points u) (Transfer.Points x)))
           (after_reads transferID x w))
  | completion_paid x u :
      fst (FindByID transferID f w) = Ok x ->
      fst (getUser (Transfer.SenderID x) f w) = Ok u ->
      Transfer.Points x <= User.Points u ->
      f HttpPut = false ->
      completion transferID f w
        ((if f DbSave then Err (New "failed to complete transfer") else Ok tt),
         snd (Update (Transfer.set_Status "completed" x) f
                (set_users
                   (<[Transfer.SenderID x :=
                        User.set_Points
                          (int_sub (User.Points u) (Transfer.Points x)) u]> (users w))
                   (log (PutPoints (Transfer.SenderID x)
                           (int_sub (User.Points u) (Transfer.Points x)))
                      (after_reads transferID x w))))).

(** Every way [InitiateTransfer] can go.  [w1] is the world once the sender
    has been asked for and, for a valid request, the clock read five
    times. *)
Inductive initiation (senderID : string) (req : TransferRequest.t) (f : Faults)
    (w : World) : result Transfer.t * World -> Prop :=
  | initiation_no_sender e :
      fst (getUser senderID f w) = Err e ->
      initiation senderID req f w
        (Err (New "failed to get sender details"), log (GetUser senderID) w)
  | initiation_invalid u e :
      fst (getUser senderID f w) = Ok u ->
      validateTransfer u req = Err e ->
      initiation senderID req f w (Err e, log (GetUser senderID) w)
  | initiation_refused u e :
      fst (getUser senderID f w) = Ok u ->
      validateTransfer u req = Ok tt ->
      let x := new_transfer senderID u req (clock w) (ticks w) in
      let w1 := set_ticks (5 + ticks w) (log (GetUser senderID) w) in
      fst (Create x f w1) = Err e ->
      initiation senderID req f w
        (Err (New "failed to create transfer"), log (SqlInsert x) w1)
  | initiation_created u :
      fst (getUser senderID f w) = Ok u ->
      validateTransfer u req = Ok tt ->
      let x := new_transfer senderID u req (clock w) (ticks w) in
      let w1 := set_ticks (5 + ticks w) (log (GetUser senderID) w) in
      f DbCreate = false ->
      indexed w && collides x (transfers w) = false ->
      initiation senderID req f w
        (Ok x,
         log (GoSendTransferEmail x)
           (set_transfers (transfers w ++ [x]) (log (SqlInsert x) w1))).

(** The texts of the errors the two operations can return. *)
Definition CompleteTransfer_errors : list string :=
  ["transfer not found"; "failed to get sender details";
   "sender no longer has sufficient points";
   "failed to deduct points from sender"; "failed to complete transfer"].

Definition InitiateTransfer_errors : list string :=
  ["failed to get sender details"; "insufficient points";
   "cannot transfer points to yourself"; "points must be greater than zero";
   "failed to create transfer"].

(** The columns that identify rows: no two rows share an id, no two rows
    share a claim token. *)
Definition keyed (w : World) : Prop :=
  NoDup (Transfer.ID <$> transfers w) /\ NoDup (Transfer.Token <$> transfers w).

(** What is fixed when a row is created: everything but the status and the
    time of the last update. *)
Definition immutable (x : Transfer.t)
  : string * string * string * string * string * Z * string * Time * Time :=
  (Transfer.ID x, Transfer.SenderID x, Transfer.SenderEmail x,
   Transfer.ReceiverEmail x, Transfer.ReceiverName x, Transfer.Points x,
   Transfer.Token x, Transfer.ExpiresAt x, Transfer.CreatedAt x).

(** The part of the world no operation of the service touches, and the
    count of clock readings, which only grows. *)
Definition framed (w w' : World) : Prop :=
  indexed w' = indexed w /\ clock w' = clock w /\ (ticks w <= ticks w')%nat.

(** Two offers of 60 points each against Ann's 100 points. *)
Module Race.
Definition first_offer : Transfer.t :=
  Transfer.mk "transfer_1" "u1" "ann@example.org" "bob@example.org" "Bob" 60
    "pending" "token_1" 1800000000000000000 1000 1000.
Definition second_offer : Transfer.t :=
  Transfer.mk "transfer_2" "u1" "ann@example.org" "cat@example.org" "Cat" 60
    "pending" "token_2" 1800000000000000000 2000 2000.
Definition world : World :=
  Scenario.world [first_offer; second_offer] true Scenario.ticking.
End Race.

(** * Properties *)

(** Unfold the monad and push the projections of the world through its
    updates. *)
Ltac step :=
  cbv [bind ret fail or_else discard lift emit fault get modify Now];
  cbn [fst snd transfers indexed users clock ticks trace
       log set_transfers set_users set_ticks].

(** ** Arithmetic on [int] *)

(** A subtraction whose exact result fits an [int] does not wrap. *)
Lemma int_sub_exact a b : in_int (a - b) -> int_sub a b = a - b.
Proof.
  unfold in_int, int_min, int_max, int_sub, wrap.
  change (2 ^ 63) with 9223372036854775808.
  change (2 ^ 64) with 18446744073709551616.
  intros H. rewrite Z.mod_small by lia. lia.
Qed.

(** In particular the debit of [points] from a balance that covers them. *)
Lemma int_sub_debit balance points :
  in_int balance -> 0 <= points <= balance -> int_sub balance points = balance - points.
Proof.
  intros Hb Hp. apply int_sub_exact. unfold in_int, int_min, int_max in *.
  change (2 ^ 63) with 9223372036854775808 in *. lia.
Qed.

(** ** The calls that leave the process, one by one *)

Section calls.
Context (f : Faults) (w : World).

Lemma FindByID_run transferID :
  FindByID transferID f w =
    ((if f DbFirst then Err ErrDatabase
      else match row transferID w with
           | Some x => Ok x
           | None => Err ErrRecordNotFound
           end),
     log (SqlSelectByID transferID) w).
Proof.
  unfold FindByID, row. step.
  destruct (f DbFirst); step; [reflexivity |].
  destruct (find _ _); reflexivity.
Qed.

Lemma getUser_run userID :
  getUser userID f w =
    ((if f HttpGet then Err ErrTransport
      else match users w !! userID with
           | None => Err (New "user not found")
           | Some u =>
               if f JsonDecode then Err (New "failed to get user data") else Ok u
           end),
     log (GetUser userID) w).
Proof.
  unfold getUser. step.
  destruct (f HttpGet); step; [reflexivity |].
  destruct (users w !! userID); step; [| reflexivity].
  destruct (f JsonDecode); reflexivity.
Qed.

Lemma updateUserPoints_run userID points :
  updateUserPoints userID points f w =
    (if f HttpPut then (Err ErrTransport, log (PutPoints userID points) w)
     else match users w !! userID with
          | None => (Err (New "failed to update points"),
                     log (PutPoints userID points) w)
          | Some u =>
              (Ok tt,
               set_users (<[userID := User.set_Points points u]> (users w))
                 (log (PutPoints userID points) w))
          end).
Proof.
  unfold updateUserPoints. step.
  destruct (f HttpPut); step; [reflexivity |].
  destruct (users w !! userID); reflexivity.
Qed.

(** The row as GORM saves it, and the table after the statement. *)
Lemma Update_run x :
  let x' := Transfer.set_UpdatedAt (clock w (ticks w)) x in
  let w1 := log (SqlUpdate x') (set_ticks (S (ticks w)) w) in
  Update x f w =
    (if f DbSave then (Err ErrDatabase, w1)
     else (Ok tt,
           set_transfers
             (map (fun r => if String.eqb (Transfer.ID r) (Transfer.ID x)
                            then x' else r) (transfers w)) w1)).
Proof.
  unfold Update. step.
  destruct (f DbSave); reflexivity.
Qed.

Lemma Create_run x :
  Create x f w =
    (if f DbCreate then (Err ErrDatabase, log (SqlInsert x) w)
     else if indexed w && collides x (transfers w)
          then (Err ErrDuplicatedKey, log (SqlInsert x) w)
          else (Ok tt, set_transfers (transfers w ++ [x]) (log (SqlInsert x) w))).
Proof.
  unfold Create. step.
  destruct (f DbCreate); step; [reflexivity |].
  destruct (indexed w && collides x (transfers w)); reflexivity.
Qed.

Lemma FindBySenderID_run senderID :
  FindBySenderID senderID f w =
    ((if f DbFind then Err ErrDatabase
      else Ok (merge_sort newer_first
                 (filter (fun x => Transfer.SenderID x = senderID) (transfers w)))),
     log (SqlSelectBySender senderID) w).
Proof.
  unfold FindBySenderID. step.
  destruct (f DbFind); reflexivity.
Qed.
End calls.

(** The outcome of a read does not depend on what was logged before it. *)
Lemma getUser_fst_log f w e userID :
  fst (getUser userID f (log e w)) = fst (getUser userID f w).
Proof. rewrite !getUser_run. reflexivity. Qed.

(** What it means for the lookup to return [x] and for the sender to
    resolve to [u]. *)
Lemma FindByID_Ok f w transferID x :
  fst (FindByID transferID f w) = Ok x <->
  f DbFirst = false /\ row transferID w = Some x.
Proof.
  rewrite FindByID_run. simpl. split.
  - destruct (f DbFirst); [discriminate |].
    destruct (row transferID w); [| discriminate].
    intros [= ->]. auto.
  - intros [-> ->]. reflexivity.
Qed.

Lemma getUser_Ok f w userID u :
  fst (getUser userID f w) = Ok u <->
  f HttpGet = false /\ users w !! userID = Some u /\ f JsonDecode = false.
Proof.
  rewrite getUser_run. simpl. split.
  - destruct (f HttpGet); [discriminate |].
    destruct (users w !! userID); [| discriminate].
    destruct (f JsonDecode); [discriminate |].
    intros [= ->]. auto.
  - intros (-> & -> & ->). reflexivity.
Qed.

Lemma updateUserPoints_Err f w userID points u :
  users w !! userID = Some u ->
  (exists e, fst (updateUserPoints userID points f w) = Err e) <-> f HttpPut = true.
Proof.
  intros Hu. rewrite updateUserPoints_run, Hu. split.
  - destruct (f HttpPut); [reflexivity |]. intros [e [=]].
  - intros ->. eauto.
Qed.

Lemma Update_Err f w x :
  (exists e, fst (Update x f w) = Err e) <-> f DbSave = true.
Proof.
  pose proof (Update_run f w x) as H. simpl in H. rewrite H. split.
  - destruct (f DbSave); [reflexivity |]. intros [e [=]].
  - intros ->. eauto.
Qed.

(** A row found under an id carries that id. *)
Lemma row_ID transferID w x : row transferID w = Some x -> Transfer.ID x = transferID.
Proof.
  unfold row. intros H. apply find_some in H as [_ H].
  apply String.eqb_eq in H. exact H.
Qed.

Lemma row_elem_of transferID w x : row transferID w = Some x -> x ∈ transfers w.
Proof.
  unfold row. intros H. apply find_some in H as [H _].
  apply list_elem_of_In. exact H.
Qed.

Lemma row_log transferID e w : row transferID (log e w) = row transferID w.
Proof. reflexivity. Qed.

(** Saving [x'] over the rows that share the id of [x] makes [x'] the row
    found under that id. *)
Lemma find_saved transferID (rows : list Transfer.t) x x' :
  find (fun r => String.eqb (Transfer.ID r) transferID) rows = Some x ->
  Transfer.ID x' = transferID ->
  find (fun r => String.eqb (Transfer.ID r) transferID)
    (map (fun r => if String.eqb (Transfer.ID r) (Transfer.ID x) then x' else r) rows)
  = Some x'.
Proof.
  intros Hfind Hid.
  assert (Transfer.ID x = transferID) as Hx.
  { apply find_some in Hfind as [_ H]. apply String.eqb_eq in H. exact H. }
  rewrite Hx. clear Hx.
  induction rows as [| r rows IH]; [discriminate |].
  cbn [find map] in *.
  destruct (String.eqb (Transfer.ID r) transferID) eqn:Hr.
  - rewrite Hid, String.eqb_refl. reflexivity.
  - rewrite Hr. apply IH, Hfind.
Qed.

(** ** The paths through [CompleteTransfer] *)

Section paths.
Context (transferID : string) (f : Faults) (w : World).
Context (x : Transfer.t) (u : User.t).
Hypothesis found : fst (FindByID transferID f w) = Ok x.
Hypothesis resolved : fst (getUser (Transfer.SenderID x) f w) = Ok u.

Local Abbreviation w2 := (after_reads transferID x w).

Lemma CompleteTransfer_reads {B} (k : Transfer.t -> User.t -> M B) :
  bind (or_else (FindByID transferID) (New "transfer not found"))
    (fun transfer =>
       bind (or_else (getUser (Transfer.SenderID transfer))
               (New "failed to get sender details"))
         (k transfer)) f w
  = k x u f w2.
Proof.
  apply FindByID_Ok in found as [Hf Hrow].
  apply getUser_Ok in resolved as (Hg & Hu & Hd).
  cbv [bind or_else]. rewrite FindByID_run, Hf, Hrow.
  rewrite getUser_run. cbn [users log]. rewrite Hg, Hu, Hd. reflexivity.
Qed.

(** Too few points: the row is saved as [failed], whatever becomes of
    that statement, and nothing is written to the Auth service. *)
Lemma CompleteTransfer_short :
  User.Points u < Transfer.Points x ->
  CompleteTransfer transferID f w =
    (Err (New "sender no longer has sufficient points"),
     snd (Update (Transfer.set_Status "failed" x) f w2)).
Proof.
  intros Hlt. unfold CompleteTransfer. rewrite CompleteTransfer_reads.
  apply Z.ltb_lt in Hlt. rewrite Hlt. reflexivity.
Qed.

(** Enough points, but the write of the new balance fails. *)
Lemma CompleteTransfer_put_failed :
  Transfer.Points x <= User.Points u ->
  f HttpPut = true ->
  CompleteTransfer transferID f w =
    (Err (New "failed to deduct points from sender"),
     log (PutPoints (Transfer.SenderID x)
            (int_sub (User.Points u) (Transfer.Points x))) w2).
Proof.
  intros Hle Hput. unfold CompleteTransfer. rewrite CompleteTransfer_reads.
  apply Z.ltb_ge in Hle. rewrite Hle.
  cbv [bind or_else]. rewrite updateUserPoints_run, Hput. reflexivity.
Qed.

(** Enough points and the new balance is written: the row is saved as
    [completed]. *)
Lemma CompleteTransfer_commit :
  Transfer.Points x <= User.Points u ->
  f HttpPut = false ->
  let debited := int_sub (User.Points u) (Transfer.Points x) in
  let w3 :=
    set_users (<[Transfer.SenderID x := User.set_Points debited u]> (users w))
      (log (PutPoints (Transfer.SenderID x) debited) w2) in
  CompleteTransfer transferID f w =
    ((if f DbSave then Err (New "failed to complete transfer") else Ok tt),
     snd (Update (Transfer.set_Status "completed" x) f w3)).
Proof.
  intros Hle Hput. unfold CompleteTransfer. rewrite CompleteTransfer_reads.
  apply getUser_Ok in resolved as (_ & Hu & _).
  apply Z.ltb_ge in Hle. rewrite Hle.
  cbv [bind or_else]. rewrite updateUserPoints_run, Hput.
  unfold after_reads. cbn [users log]. rewrite Hu.
  match goal with |- context [Update ?y f ?v] =>
    pose proof (Update_run f v y) as HU; cbv zeta in HU; rewrite HU end.
  destruct (f DbSave); reflexivity.
Qed.
End paths.

(** ** Completion: outcomes *)

Section completion.
Context (transferID : string) (f : Faults) (w : World).
Context (x : Transfer.t) (u : User.t).
Hypothesis found : fst (FindByID transferID f w) = Ok x.
Hypothesis resolved : fst (getUser (Transfer.SenderID x) f w) = Ok u.

Local Abbreviation sender := (Transfer.SenderID x).
Local Abbreviation debited := (int_sub (User.Points u) (Transfer.Points x)).

(** The successful path, spelled out: result, balance, stored row and
    the calls made. *)
Lemma CompleteTransfer_completes :
  Transfer.Points x <= User.Points u ->
  f HttpPut = false ->
  f DbSave = false ->
  let w' := snd (CompleteTransfer transferID f w) in
  fst (CompleteTransfer transferID f w) = Ok tt /\
  balance sender w' = Some debited /\
  row transferID w' = Some (saved "completed" x w) /\
  trace w' = trace w ++ [SqlSelectByID transferID; GetUser sender;
                         PutPoints sender debited;
                         SqlUpdate (saved "completed" x w)].
Proof.
  intros Hle Hput Hsave.
  rewrite (CompleteTransfer_commit _ _ _ _ _ found resolved Hle Hput).
  match goal with |- context [Update ?y f ?v] =>
    pose proof (Update_run f v y) as HU; cbv zeta in HU; rewrite HU end.
  rewrite Hsave. cbn [fst snd]. unfold balance, row, after_reads.
  cbn [transfers users trace clock ticks log set_users set_ticks set_transfers].
  repeat split.
  - rewrite lookup_insert_eq. reflexivity.
  - apply FindByID_Ok in found as [_ Hrow].
    apply (find_saved _ _ _ _ Hrow). apply (row_ID _ _ _ Hrow).
  - rewrite <- !app_assoc. reflexivity.
Qed.

(** The path taken when the sender holds too few points. *)
Lemma CompleteTransfer_fails :
  User.Points u < Transfer.Points x ->
  let w' := snd (CompleteTransfer transferID f w) in
  fst (CompleteTransfer transferID f w)
    = Err (New "sender no longer has sufficient points") /\
  users w' = users w /\
  trace w' = trace w ++ [SqlSelectByID transferID; GetUser sender;
                         SqlUpdate (saved "failed" x w)] /\
  (f DbSave = false -> row transferID w' = Some (saved "failed" x w)) /\
  (f DbSave = true -> transfers w' = transfers w).
Proof.
  intros Hlt.
  rewrite (CompleteTransfer_short _ _ _ _ _ found resolved Hlt).
  match goal with |- context [Update ?y f ?v] =>
    pose proof (Update_run f v y) as HU; cbv zeta in HU; rewrite HU end.
  unfold after_reads, row.
  destruct (f DbSave);
    cbn [fst snd transfers users trace clock ticks log set_users set_ticks
         set_transfers];
    rewrite <- !app_assoc; repeat split; try discriminate.
  intros _. apply FindByID_Ok in found as [_ Hrow].
  apply (find_saved _ _ _ _ Hrow). apply (row_ID _ _ _ Hrow).
Qed.
End completion.

(** C1 (counterexample): the second [Complete] on the same offer finds the row
    [completed], is not rejected, asks the Auth service for the balance again
    and writes it a second time: Ann goes from 100 to 70 and then to 40 for
    one offer of 30 points. *)
Lemma Complete_twice_debits_twice :
  let w1 := snd (CompleteTransfer "transfer_1" no_faults Scenario.open_offer) in
  let w2 := snd (CompleteTransfer "transfer_1" no_faults w1) in
  balance "u1" Scenario.open_offer = Some 100 /\
  Transfer.Status <$> row "transfer_1" w1 = Some "completed" /\
  balance "u1" w1 = Some 70 /\
  fst (CompleteTransfer "transfer_1" no_faults w1) = Ok tt /\
  List.filter touches_balance (drop (length (trace w1)) (trace w2))
    = [GetUser "u1"; PutPoints "u1" 40] /\
  balance "u1" w2 = Some 40.
Proof. vm_compute. repeat split. Qed.

(** C1 (as the code has it): [CompleteTransfer] never looks at the status of
    the row.  On a row whose status is not [pending] it goes on as on any
    other: it reads the sender's balance and, when the balance covers the
    points and both the balance write and the save succeed, it writes the
    balance less the points, saves the row as [completed] and returns no
    error.  The debit is applied once for every such call. *)
Theorem Complete_on_non_pending transferID f w x u :
  fst (FindByID transferID f w) = Ok x ->
  Transfer.Status x <> "pending" ->
  fst (getUser (Transfer.SenderID x) f w) = Ok u ->
  Transfer.Points x <= User.Points u ->
  f HttpPut = false ->
  f DbSave = false ->
  let w' := snd (CompleteTransfer transferID f w) in
  let debited := int_sub (User.Points u) (Transfer.Points x) in
  fst (CompleteTransfer transferID f w) = Ok tt /\
  balance (Transfer.SenderID x) w' = Some debited /\
  Transfer.Status <$> row transferID w' = Some "completed" /\
  trace w' = trace w ++ [SqlSelectByID transferID; GetUser (Transfer.SenderID x);
                         PutPoints (Transfer.SenderID x) debited;
                         SqlUpdate (saved "completed" x w)].
Proof.
  intros found _ resolved Hle Hput Hsave.
  destruct (CompleteTransfer_completes _ _ _ _ _ found resolved Hle Hput Hsave)
    as (Hr & Hb & Hrow & Ht).
  cbv zeta. rewrite Hr, Hb, Hrow, Ht. repeat split.
Qed.

Lemma Complete_on_non_pending_witness :
  let x := Scenario.gift "completed" 1800000000000000000 in
  let w := Scenario.settled_offer in
  let w' := snd (CompleteTransfer "transfer_1" no_faults w) in
  (fst (FindByID "transfer_1" no_faults w) = Ok x /\
   Transfer.Status x <> "pending" /\
   fst (getUser "u1" no_faults w) = Ok Scenario.ann /\
   30 <= 100) /\
  (fst (CompleteTransfer "transfer_1" no_faults w) = Ok tt /\
   balance "u1" w' = Some (int_sub 100 30) /\
   Transfer.Status <$> row "transfer_1" w' = Some "completed" /\
   trace w' = trace w ++ [SqlSelectByID "transfer_1"; GetUser "u1";
                          PutPoints "u1" (int_sub 100 30);
                          SqlUpdate (saved "completed" x w)]).
Proof.
  cbv zeta. split.
  - repeat split; try (vm_compute; reflexivity); [discriminate | lia].
  - apply (Complete_on_non_pending "transfer_1" no_faults Scenario.settled_offer
             (Scenario.gift "completed" 1800000000000000000) Scenario.ann);
      try reflexivity; [discriminate | vm_compute; discriminate].
Defined.

(** C2 (counterexample): an offer that expired long ago is completed like
    any other; the row becomes [completed], not [expired], no error is
    returned and Ann's balance drops from 100 to 70. *)
Lemma Complete_after_expiry :
  let w := Scenario.stale_offer in
  let w' := snd (CompleteTransfer "transfer_1" no_faults w) in
  Transfer.Status <$> row "transfer_1" w = Some "pending" /\
  (Transfer.ExpiresAt <$> row "transfer_1" w) = Some 1600000000000000000 /\
  clock w (ticks w) = 1700000000000000000 /\
  fst (CompleteTransfer "transfer_1" no_faults w) = Ok tt /\
  Transfer.Status <$> row "transfer_1" w' = Some "completed" /\
  balance "u1" w = Some 100 /\
  balance "u1" w' = Some 70.
Proof. vm_compute. repeat split. Qed.

(** C2 (as the code has it): [CompleteTransfer] never compares the expiry of
    the row with the clock.  A pending row whose expiry has passed is
    completed like an open one: with a balance that covers the points, and
    the balance write and the save succeeding, the sender is debited, the
    row is saved as [completed] with its expiry as it was, and no error is
    returned. *)
Theorem Complete_on_expired transferID f w x u :
  fst (FindByID transferID f w) = Ok x ->
  Transfer.Status x = "pending" ->
  Transfer.ExpiresAt x < clock w (ticks w) ->
  fst (getUser (Transfer.SenderID x) f w) = Ok u ->
  Transfer.Points x <= User.Points u ->
  f HttpPut = false ->
  f DbSave = false ->
  let w' := snd (CompleteTransfer transferID f w) in
  fst (CompleteTransfer transferID f w) = Ok tt /\
  balance (Transfer.SenderID x) w'
    = Some (int_sub (User.Points u) (Transfer.Points x)) /\
  Transfer.Status <$> row transferID w' = Some "completed" /\
  Transfer.ExpiresAt <$> row transferID w' = Some (Transfer.ExpiresAt x).
Proof.
  intros found _ _ resolved Hle Hput Hsave.
  destruct (CompleteTransfer_completes _ _ _ _ _ found resolved Hle Hput Hsave)
    as (Hr & Hb & Hrow & _).
  cbv zeta. rewrite Hr, Hb, Hrow. repeat split.
Qed.

Lemma Complete_on_expired_witness :
  let x := Scenario.gift "pending" 1600000000000000000 in
  let w := Scenario.stale_offer in
  let w' := snd (CompleteTransfer "transfer_1" no_faults w) in
  (fst (FindByID "transfer_1" no_faults w) = Ok x /\
   Transfer.Status x = "pending" /\
   Transfer.ExpiresAt x < clock w (ticks w) /\
   fst (getUser "u1" no_faults w) = Ok Scenario.ann /\
   30 <= 100) /\
  (fst (CompleteTransfer "transfer_1" no_faults w) = Ok tt /\
   balance "u1" w' = Some (int_sub 100 30) /\
   Transfer.Status <$> row "transfer_1" w' = Some "completed" /\
   Transfer.ExpiresAt <$> row "transfer_1" w' = Some 1600000000000000000).
Proof.
  cbv zeta. split.
  - repeat split; try (vm_compute; reflexivity); vm_compute; discriminate.
  - apply (Complete_on_expired "transfer_1" no_faults Scenario.stale_offer
             (Scenario.gift "pending" 1600000000000000000) Scenario.ann);
      try reflexivity; vm_compute; discriminate.
Defined.

(** C4: when the row is found pending, its sender resolves with enough
    points and the write of the reduced balance fails, [CompleteTransfer]
    returns "failed to deduct points from sender" and sends nothing to the
    store: the table is as before, the row is still [pending] and the
    balance is untouched.  A retry that meets no failure then completes the
    transfer with a single debit. *)
Theorem Complete_failed_write_keeps_pending transferID f w x u :
  fst (FindByID transferID f w) = Ok x ->
  Transfer.Status x = "pending" ->
  fst (getUser (Transfer.SenderID x) f w) = Ok u ->
  Transfer.Points x <= User.Points u ->
  (exists e, fst (updateUserPoints (Transfer.SenderID x)
                    (int_sub (User.Points u) (Transfer.Points x)) f w) = Err e) ->
  let w' := snd (CompleteTransfer transferID f w) in
  let retry := CompleteTransfer transferID no_faults w' in
  fst (CompleteTransfer transferID f w)
    = Err (New "failed to deduct points from sender") /\
  transfers w' = transfers w /\
  Transfer.Status <$> row transferID w' = Some "pending" /\
  users w' = users w /\
  fst retry = Ok tt /\
  balance (Transfer.SenderID x) (snd retry)
    = Some (int_sub (User.Points u) (Transfer.Points x)).
Proof.
  intros found Hpending resolved Hle Hfail.
  pose proof found as [_ Hrow]%FindByID_Ok.
  pose proof resolved as (_ & Hu & _)%getUser_Ok.
  apply (updateUserPoints_Err _ _ _ _ _ Hu) in Hfail.
  cbv zeta.
  rewrite (CompleteTransfer_put_failed _ _ _ _ _ found resolved Hle Hfail).
  cbn [fst snd].
  set (w' := log _ _).
  assert (fst (FindByID transferID no_faults w') = Ok x) as found'.
  { apply FindByID_Ok. split; [reflexivity | exact Hrow]. }
  assert (fst (getUser (Transfer.SenderID x) no_faults w') = Ok u) as resolved'.
  { apply getUser_Ok. repeat split. exact Hu. }
  destruct (CompleteTransfer_completes _ _ _ _ _ found' resolved' Hle eq_refl eq_refl)
    as (Hr & Hb & _).
  repeat split; try assumption.
  change (row transferID w') with (row transferID w). rewrite Hrow.
  cbn. rewrite Hpending. reflexivity.
Qed.

Lemma Complete_failed_write_keeps_pending_witness :
  let x := Scenario.gift "pending" 1800000000000000000 in
  let w := Scenario.open_offer in
  let f := Scenario.put_fails in
  let w' := snd (CompleteTransfer "transfer_1" f w) in
  (fst (FindByID "transfer_1" f w) = Ok x /\
   Transfer.Status x = "pending" /\
   fst (getUser "u1" f w) = Ok Scenario.ann /\
   30 <= 100 /\
   fst (updateUserPoints "u1" (int_sub 100 30) f w) = Err ErrTransport) /\
  (fst (CompleteTransfer "transfer_1" f w)
     = Err (New "failed to deduct points from sender") /\
   transfers w' = transfers w /\
   Transfer.Status <$> row "transfer_1" w' = Some "pending" /\
   users w' = users w /\
   fst (CompleteTransfer "transfer_1" no_faults w') = Ok tt /\
   balance "u1" (snd (CompleteTransfer "transfer_1" no_faults w'))
     = Some (int_sub 100 30)).
Proof.
  cbv zeta. split.
  - repeat split; try (vm_compute; reflexivity). lia.
  - apply (Complete_failed_write_keeps_pending "transfer_1" Scenario.put_fails
             Scenario.open_offer (Scenario.gift "pending" 1800000000000000000)
             Scenario.ann);
      try reflexivity; [vm_compute; discriminate | eexists; reflexivity].
Defined.

(** C5: when the sender's current balance is strictly below the points of
    the row, [CompleteTransfer] sets the status to [failed], sends the row
    to the store and returns "sender no longer has sufficient points".  The
    only calls it makes are the lookup, the balance read and that save: no
    balance is written and the accounts are unchanged.  The save being
    accepted, the stored row is [failed]. *)
Theorem Complete_insufficient_balance transferID f w x u :
  fst (FindByID transferID f w) = Ok x ->
  fst (getUser (Transfer.SenderID x) f w) = Ok u ->
  User.Points u < Transfer.Points x ->
  let w' := snd (CompleteTransfer transferID f w) in
  fst (CompleteTransfer transferID f w)
    = Err (New "sender no longer has sufficient points") /\
  trace w' = trace w ++ [SqlSelectByID transferID; GetUser (Transfer.SenderID x);
                         SqlUpdate (saved "failed" x w)] /\
  Transfer.Status (saved "failed" x w) = "failed" /\
  (f DbSave = false -> Transfer.Status <$> row transferID w' = Some "failed") /\
  users w' = users w.
Proof.
  intros found resolved Hlt.
  destruct (CompleteTransfer_fails _ _ _ _ _ found resolved Hlt)
    as (Hr & Hu & Ht & Hrow & _).
  cbv zeta. repeat split; try assumption.
  intros Hsave. rewrite (Hrow Hsave). reflexivity.
Qed.

Lemma Complete_insufficient_balance_witness :
  let x := Scenario.big_gift in
  let w := Scenario.large_offer in
  let w' := snd (CompleteTransfer "transfer_9" no_faults w) in
  (fst (FindByID "transfer_9" no_faults w) = Ok x /\
   fst (getUser "u1" no_faults w) = Ok Scenario.ann /\
   100 < 160) /\
  (fst (CompleteTransfer "transfer_9" no_faults w)
     = Err (New "sender no longer has sufficient points") /\
   trace w' = trace w ++ [SqlSelectByID "transfer_9"; GetUser "u1";
                          SqlUpdate (saved "failed" x w)] /\
   Transfer.Status (saved "failed" x w) = "failed" /\
   (no_faults DbSave = false ->
    Transfer.Status <$> row "transfer_9" w' = Some "failed") /\
   users w' = users w).
Proof.
  cbv zeta. split.
  - repeat split; try (vm_compute; reflexivity).
  - apply (Complete_insufficient_balance "transfer_9" no_faults Scenario.large_offer
             Scenario.big_gift Scenario.ann); reflexivity.
Defined.

(** C9: when the sender's balance is below the points of the row and the
    save of the [failed] row is itself refused by the store, that error is
    dropped: [CompleteTransfer] still returns "sender no longer has
    sufficient points", and the table is as it was, so a row that was
    [pending] is still [pending]. *)
Theorem Complete_insufficient_save_lost transferID f w x u :
  fst (FindByID transferID f w) = Ok x ->
  fst (getUser (Transfer.SenderID x) f w) = Ok u ->
  User.Points u < Transfer.Points x ->
  (exists e, fst (Update (Transfer.set_Status "failed" x) f
                    (after_reads transferID x w)) = Err e) ->
  let w' := snd (CompleteTransfer transferID f w) in
  fst (CompleteTransfer transferID f w)
    = Err (New "sender no longer has sufficient points") /\
  transfers w' = transfers w /\
  row transferID w' = Some x /\
  (Transfer.Status x = "pending" ->
   Transfer.Status <$> row transferID w' = Some "pending").
Proof.
  intros found resolved Hlt Hfail. apply Update_Err in Hfail.
  pose proof found as [_ Hrow]%FindByID_Ok.
  destruct (CompleteTransfer_fails _ _ _ _ _ found resolved Hlt)
    as (Hr & _ & _ & _ & Hkeep).
  specialize (Hkeep Hfail). cbv zeta.
  assert (row transferID (snd (CompleteTransfer transferID f w)) = Some x) as Hrow'.
  { unfold row in *. rewrite Hkeep. exact Hrow. }
  repeat split; try assumption.
  intros Hp. rewrite Hrow'. cbn. rewrite Hp. reflexivity.
Qed.

Lemma Complete_insufficient_save_lost_witness :
  let x := Scenario.big_gift in
  let w := Scenario.large_offer in
  let f := Scenario.save_fails in
  let w' := snd (CompleteTransfer "transfer_9" f w) in
  (fst (FindByID "transfer_9" f w) = Ok x /\
   fst (getUser "u1" f w) = Ok Scenario.ann /\
   100 < 160 /\
   fst (Update (Transfer.set_Status "failed" x) f (after_reads "transfer_9" x w))
     = Err ErrDatabase) /\
  (fst (CompleteTransfer "transfer_9" f w)
     = Err (New "sender no longer has sufficient points") /\
   transfers w' = transfers w /\
   row "transfer_9" w' = Some x /\
   (Transfer.Status x = "pending" ->
    Transfer.Status <$> row "transfer_9" w' = Some "pending")).
Proof.
  cbv zeta. split.
  - repeat split; try (vm_compute; reflexivity).
  - apply (Complete_insufficient_save_lost "transfer_9" Scenario.save_fails
             Scenario.large_offer Scenario.big_gift Scenario.ann);
      try reflexivity. eexists; reflexivity.
Defined.

(** ** Initiation *)

Lemma InitiateTransfer_run senderID req f w :
  InitiateTransfer senderID req f w =
    let w1 := log (GetUser senderID) w in
    match fst (getUser senderID f w) with
    | Err _ => (Err (New "failed to get sender details"), w1)
    | Ok u =>
        match validateTransfer u req with
        | Err e => (Err e, w1)
        | Ok _ =>
            let x := new_transfer senderID u req (clock w) (ticks w) in
            match Create x f (set_ticks (5 + ticks w) w1) with
            | (Ok _, w2) => (Ok x, log (GoSendTransferEmail x) w2)
            | (Err _, w2) => (Err (New "failed to create transfer"), w2)
            end
        end
    end.
Proof.
  unfold InitiateTransfer. cbv [bind or_else]. rewrite getUser_run.
  cbn [fst]. cbv zeta.
  destruct (if f HttpGet then _ else _) as [u | e]; [| reflexivity].
  unfold lift. destruct (validateTransfer u req) as [[] | e]; [| reflexivity].
  unfold generateID, generateToken. step.
  unfold new_transfer. cbn [Nat.add].
  destruct (Create _ f _) as [[[] | e] w2]; reflexivity.
Qed.

(** What a successful initiation returns and leaves behind. *)
Lemma InitiateTransfer_Ok senderID req f w x :
  fst (InitiateTransfer senderID req f w) = Ok x ->
  exists u,
    fst (getUser senderID f w) = Ok u /\
    validateTransfer u req = Ok tt /\
    x = new_transfer senderID u req (clock w) (ticks w) /\
    transfers (snd (InitiateTransfer senderID req f w)) = transfers w ++ [x].
Proof.
  rewrite InitiateTransfer_run. cbv zeta.
  destruct (fst (getUser senderID f w)) as [u | e]; [| discriminate].
  destruct (validateTransfer u req) as [[] | e] eqn:Hvalid; [| discriminate].
  rewrite Create_run.
  destruct (f DbCreate); [discriminate |].
  destruct (indexed _ && collides _ _); [discriminate |].
  cbn [fst snd transfers log set_transfers set_ticks].
  intros [= <-]. exists u. repeat split. exact Hvalid.
Qed.

(** The business rules, read off [validateTransfer]. *)
Lemma validateTransfer_cases (u : User.t) (req : TransferRequest.t) :
  (User.Points u < TransferRequest.Points req ->
   validateTransfer u req = Err (New "insufficient points")) /\
  (TransferRequest.Points req <= User.Points u ->
   User.Email u = TransferRequest.ReceiverEmail req ->
   validateTransfer u req = Err (New "cannot transfer points to yourself")) /\
  (TransferRequest.Points req <= User.Points u ->
   User.Email u <> TransferRequest.ReceiverEmail req ->
   TransferRequest.Points req <= 0 ->
   validateTransfer u req = Err (New "points must be greater than zero")) /\
  (TransferRequest.Points req <= User.Points u ->
   User.Email u <> TransferRequest.ReceiverEmail req ->
   0 < TransferRequest.Points req ->
   validateTransfer u req = Ok tt).
Proof.
  unfold validateTransfer.
  destruct (Z.ltb_spec (User.Points u) (TransferRequest.Points req));
    destruct (String.eqb_spec (User.Email u) (TransferRequest.ReceiverEmail req));
    destruct (Z.leb_spec (TransferRequest.Points req) 0);
    repeat split; intros; (reflexivity || lia || contradiction).
Qed.

(** C6 (counterexample): Ann holds 100 points.  Offering 0 points to her own
    address breaks the rule on the amount and the rule on self-transfer, and
    is turned down as a self-transfer, not for its amount; offering 500
    points to her own address breaks the rule on self-transfer and the rule
    on the balance, and is turned down for the balance, not as a
    self-transfer. *)
Lemma Initiate_order_counterexample :
  fst (getUser "u1" no_faults Scenario.open_offer) = Ok Scenario.ann /\
  fst (InitiateTransfer "u1" (Scenario.to_self 0) no_faults Scenario.open_offer)
    = Err (New "cannot transfer points to yourself") /\
  fst (InitiateTransfer "u1" (Scenario.to_self 500) no_faults Scenario.open_offer)
    = Err (New "insufficient points").
Proof. vm_compute. repeat split. Qed.

(** C6 (as the code has it): the preconditions of [InitiateTransfer] are
    checked in this order, the first failure deciding the error: (1) the
    sender resolves at the Auth service, else "failed to get sender
    details"; (2) the sender's balance is at least the points, else
    "insufficient points"; (3) the receiver's address differs from the
    sender's, compared character by character, else "cannot transfer points
    to yourself"; (4) the points are positive, else "points must be greater
    than zero".  Past the four, the only error left is that of the store. *)
Theorem Initiate_checks_in_order senderID req f w :
  let r := fst (InitiateTransfer senderID req f w) in
  ((exists e, fst (getUser senderID f w) = Err e) ->
   r = Err (New "failed to get sender details")) /\
  (forall u, fst (getUser senderID f w) = Ok u ->
     (User.Points u < TransferRequest.Points req ->
      r = Err (New "insufficient points")) /\
     (TransferRequest.Points req <= User.Points u ->
      User.Email u = TransferRequest.ReceiverEmail req ->
      r = Err (New "cannot transfer points to yourself")) /\
     (TransferRequest.Points req <= User.Points u ->
      User.Email u <> TransferRequest.ReceiverEmail req ->
      TransferRequest.Points req <= 0 ->
      r = Err (New "points must be greater than zero")) /\
     (TransferRequest.Points req <= User.Points u ->
      User.Email u <> TransferRequest.ReceiverEmail req ->
      0 < TransferRequest.Points req ->
      r = Err (New "failed to create transfer") \/ exists x, r = Ok x)).
Proof.
  cbv zeta. rewrite InitiateTransfer_run. cbv zeta. split.
  - intros [e ->]. reflexivity.
  - intros u ->.
    destruct (validateTransfer_cases u req) as (H1 & H2 & H3 & H4).
    repeat split; intros.
    + rewrite H1 by assumption. reflexivity.
    + rewrite H2 by assumption. reflexivity.
    + rewrite H3 by assumption. reflexivity.
    + rewrite H4 by assumption.
      destruct (Create _ f _) as [[[] | e] w2]; cbn [fst]; eauto.
Qed.

(** C7 (counterexample): on a clock that moves on by a nanosecond from one
    reading to the next, the offer is created at ...003 and expires 24 hours
    after ...002. *)
Lemma Initiate_expiry_counterexample :
  fst (InitiateTransfer "u1" (Scenario.to_bob 60) no_faults Scenario.open_offer)
    = Ok (Transfer.mk "transfer_1700000000000000000" "u1" "ann@example.org"
            "bob@example.org" "Bob" 60 "pending" "token_1700000000000000001"
            1700086400000000002 1700000000000000003 1700000000000000004) /\
  1700086400000000002 <> Add 1700000000000000003 (24 * Hour).
Proof. split; [vm_compute; reflexivity | vm_compute; discriminate]. Qed.

(** C7 (as the code has it): the record that a successful [InitiateTransfer]
    returns is the row it added to the table; its status is [pending]; its
    expiry is the third reading of the clock plus exactly 24 hours, and its
    creation time is the fourth reading.  Expiry and creation time are
    therefore 24 hours apart exactly when the clock shows the same instant
    at both readings. *)
Theorem Initiate_record senderID req f w x :
  fst (InitiateTransfer senderID req f w) = Ok x ->
  let w' := snd (InitiateTransfer senderID req f w) in
  Transfer.Status x = "pending" /\
  transfers w' = transfers w ++ [x] /\
  Transfer.ExpiresAt x = Add (clock w (2 + ticks w)%nat) (24 * Hour) /\
  24 * Hour = 86400 * 1000000000 /\
  Transfer.CreatedAt x = clock w (3 + ticks w)%nat /\
  (Transfer.ExpiresAt x = Add (Transfer.CreatedAt x) (24 * Hour) <->
   clock w (2 + ticks w)%nat = clock w (3 + ticks w)%nat).
Proof.
  intros H. apply InitiateTransfer_Ok in H as (u & _ & _ & -> & Hrows).
  cbv zeta. rewrite Hrows. unfold new_transfer, Add. cbn [Transfer.Status
    Transfer.ExpiresAt Transfer.CreatedAt].
  repeat split; intros; lia.
Qed.

Lemma Initiate_record_witness :
  let w := Scenario.open_offer in
  let x := new_transfer "u1" Scenario.ann (Scenario.to_bob 60) (clock w) (ticks w) in
  let w' := snd (InitiateTransfer "u1" (Scenario.to_bob 60) no_faults w) in
  fst (InitiateTransfer "u1" (Scenario.to_bob 60) no_faults w) = Ok x /\
  (Transfer.Status x = "pending" /\
   transfers w' = transfers w ++ [x] /\
   Transfer.ExpiresAt x = Add (clock w (2 + ticks w)%nat) (24 * Hour) /\
   24 * Hour = 86400 * 1000000000 /\
   Transfer.CreatedAt x = clock w (3 + ticks w)%nat /\
   (Transfer.ExpiresAt x = Add (Transfer.CreatedAt x) (24 * Hour) <->
    clock w (2 + ticks w)%nat = clock w (3 + ticks w)%nat)).
Proof.
  cbv zeta. split.
  - vm_compute. reflexivity.
  - apply (Initiate_record "u1" (Scenario.to_bob 60) no_faults Scenario.open_offer).
    vm_compute. reflexivity.
Defined.

(** Two offers initiated while the clock shows the same instant:
    [generateToken] prints that instant both times, and the store, which
    holds the first row under that token, turns the second row away. *)
Lemma same_instant_initiation_refused :
  let first := InitiateTransfer "u1" (Scenario.to_bob 60) no_faults
                 (Scenario.world [] true Scenario.coarse) in
  let second := InitiateTransfer "u1" (Scenario.to_bob 10) no_faults (snd first) in
  (exists x1, fst first = Ok x1 /\
              Transfer.Token x1 = "token_1700000000000000000") /\
  fst second = Err (New "failed to create transfer").
Proof.
  cbv zeta. split.
  - eexists. split; vm_compute; reflexivity.
  - vm_compute. reflexivity.
Qed.

Lemma append_inj_r (prefix a b : string) : prefix +:+ a = prefix +:+ b -> a = b.
Proof.
  induction prefix as [| c prefix IH]; cbn [String.append]; [trivial |].
  intros [= H]. apply IH, H.
Qed.

(** Beyond the instant it is generated at, nothing goes into a token: two
    records get the same token exactly when the clock read the same at
    their token readings. *)
Lemma Token_new_transfer s u req clk n s' u' req' clk' n' :
  Transfer.Token (new_transfer s u req clk n)
    = Transfer.Token (new_transfer s' u' req' clk' n')
  <-> clk (1 + n)%nat = clk' (1 + n')%nat.
Proof.
  unfold new_transfer. cbn [Transfer.Token]. split.
  - intros H%append_inj_r. apply (inj (pretty : Z -> string)) in H. exact H.
  - intros ->. reflexivity.
Qed.

(** ** Listing *)

#[global] Instance newer_first_total : Total newer_first.
Proof. intros a b. unfold newer_first. lia. Qed.

#[global] Instance newer_first_trans : Transitive newer_first.
Proof. intros a b c. unfold newer_first. lia. Qed.

(** C3 (counterexample): the reply to [GET /transfers/u1] spells out the
    claim token of Ann's offer. *)
Lemma GetTransfers_shows_token :
  fst (GetTransfers "u1" no_faults Scenario.open_offer) =
    mkResponse 200
      (JObject [
         ("data", JArray [
            JObject [
              ("id", JString "transfer_1");
              ("sender_id", JString "u1");
              ("sender_email", JString "ann@example.org");
              ("receiver_email", JString "bob@example.org");
              ("receiver_name", JString "Bob");
              ("points", JNumber 30);
              ("status", JString "pending");
              ("token", JString "token_2");
              ("expires_at", JTime 1800000000000000000);
              ("created_at", JTime 1000);
              ("updated_at", JTime 1000)]]);
         ("success", JBool true)]).
Proof. vm_compute. reflexivity. Qed.

(** C3 (as the code has it): when the query goes through, the listing
    holds exactly the rows of the table whose sender identifier is the
    argument, each as often as it is stored, ordered newest first by
    creation time; the table and the accounts are left alone.  The reply
    renders every field of every row, the claim token included. *)
Theorem GetTransfers_lists_sender userID f w :
  f DbFind = false ->
  exists rows,
    GetUserTransfers userID f w = (Ok rows, log (SqlSelectBySender userID) w) /\
    rows ≡ₚ filter (fun x => Transfer.SenderID x = userID) (transfers w) /\
    (forall x, x ∈ rows <-> x ∈ transfers w /\ Transfer.SenderID x = userID) /\
    StronglySorted newer_first rows /\
    fst (GetTransfers userID f w) =
      mkResponse StatusOK
        (JObject [("data", JArray (map Transfer_json rows));
                  ("success", JBool true)]) /\
    (forall x, x ∈ rows ->
       member "token" (Transfer_json x) = Some (JString (Transfer.Token x))).
Proof.
  intros Hfind.
  exists (merge_sort newer_first
            (filter (fun x => Transfer.SenderID x = userID) (transfers w))).
  assert (GetUserTransfers userID f w
          = (Ok (merge_sort newer_first
                   (filter (fun x => Transfer.SenderID x = userID) (transfers w))),
             log (SqlSelectBySender userID) w)) as Hrun.
  { unfold GetUserTransfers. rewrite FindBySenderID_run, Hfind. reflexivity. }
  split; [exact Hrun |].
  split; [apply merge_sort_Permutation |].
  split.
  { intros x. rewrite merge_sort_Permutation, list_elem_of_filter. tauto. }
  split; [apply StronglySorted_merge_sort; apply _ |].
  split; [unfold GetTransfers; rewrite Hrun; reflexivity |].
  intros x _. reflexivity.
Qed.

Lemma GetTransfers_lists_sender_witness :
  no_faults DbFind = false /\
  exists rows,
    GetUserTransfers "u1" no_faults Scenario.open_offer
      = (Ok rows, log (SqlSelectBySender "u1") Scenario.open_offer) /\
    rows ≡ₚ filter (fun x => Transfer.SenderID x = "u1")
              (transfers Scenario.open_offer) /\
    (forall x, x ∈ rows <->
               x ∈ transfers Scenario.open_offer /\ Transfer.SenderID x = "u1") /\
    StronglySorted newer_first rows /\
    fst (GetTransfers "u1" no_faults Scenario.open_offer) =
      mkResponse StatusOK
        (JObject [("data", JArray (map Transfer_json rows));
                  ("success", JBool true)]) /\
    (forall x, x ∈ rows ->
       member "token" (Transfer_json x) = Some (JString (Transfer.Token x))).
Proof.
  split; [reflexivity |].
  apply (GetTransfers_lists_sender "u1" no_faults Scenario.open_offer).
  reflexivity.
Defined.

(** ** What the operations write *)

Section along.
Context (R : relation World) `{!PreOrder R}.

Lemma along_ret {A} (a : A) : along R (ret a).
Proof. intros f w. reflexivity. Qed.

Lemma along_fail {A} e : along R (@fail A e).
Proof. intros f w. reflexivity. Qed.

Lemma along_bind {A B} (c : M A) (k : A -> M B) :
  along R c -> (forall a, along R (k a)) -> along R (bind c k).
Proof.
  intros Hc Hk f w. unfold bind.
  specialize (Hc f w). destruct (c f w) as [[a | e] w1]; cbn [snd] in *.
  - transitivity w1; [exact Hc | apply Hk].
  - exact Hc.
Qed.

Lemma along_or_else {A} (c : M A) e : along R c -> along R (or_else c e).
Proof.
  intros Hc f w. unfold or_else.
  specialize (Hc f w). destruct (c f w) as [[a | e'] w1]; exact Hc.
Qed.

Lemma along_discard {A} (c : M A) : along R c -> along R (discard c).
Proof. intros Hc f w. apply Hc. Qed.
End along.

Section wrote.
Context (Q : Transfer.t -> Prop).

#[global] Instance wrote_preorder : PreOrder (wrote Q).
Proof.
  split.
  - intros w. split.
    + exists []. rewrite app_nil_r. split; [reflexivity |].
      intros e x H. apply elem_of_nil in H. contradiction.
    + auto.
  - intros w1 w2 w3 [(evs1 & Ht1 & He1) Hr1] [(evs2 & Ht2 & He2) Hr2]. split.
    + exists (evs1 ++ evs2). rewrite Ht2, Ht1, app_assoc. split; [reflexivity |].
      intros e x [H | H]%elem_of_app; eauto.
    + intros x H. destruct (Hr2 x H) as [H' | H']; auto.
Qed.

(** A call that does not write the table. *)
Lemma wrote_read w w' e :
  trace w' = trace w ++ [e] -> written e = None ->
  transfers w' = transfers w -> wrote Q w w'.
Proof.
  intros Ht He Hr. split.
  - exists [e]. split; [exact Ht |].
    intros e' x ->%list_elem_of_singleton. congruence.
  - intros x. rewrite Hr. auto.
Qed.

Lemma along_FindByID transferID : along (wrote Q) (FindByID transferID).
Proof. intros f w. rewrite FindByID_run. eapply wrote_read; reflexivity. Qed.

Lemma along_getUser userID : along (wrote Q) (getUser userID).
Proof. intros f w. rewrite getUser_run. eapply wrote_read; reflexivity. Qed.

Lemma along_FindBySenderID senderID : along (wrote Q) (FindBySenderID senderID).
Proof. intros f w. rewrite FindBySenderID_run. eapply wrote_read; reflexivity. Qed.

Lemma along_updateUserPoints userID points :
  along (wrote Q) (updateUserPoints userID points).
Proof.
  intros f w. rewrite updateUserPoints_run.
  destruct (f HttpPut); [| destruct (users w !! userID)];
    eapply wrote_read; reflexivity.
Qed.

(** A statement that writes the row [x]. *)
Lemma wrote_write w w' e x :
  trace w' = trace w ++ [e] -> written e = Some x -> Q x ->
  (forall y, y ∈ transfers w' -> y ∈ transfers w \/ y = x) -> wrote Q w w'.
Proof.
  intros Ht He HQ Hr. split.
  - exists [e]. split; [exact Ht |].
    intros e' y ->%list_elem_of_singleton. congruence.
  - intros y Hy. destruct (Hr y Hy) as [H | ->]; auto.
Qed.

Lemma along_Update x :
  (forall t, Q (Transfer.set_UpdatedAt t x)) -> along (wrote Q) (Update x).
Proof.
  intros HQ f w. pose proof (Update_run f w x) as H. cbv zeta in H. rewrite H.
  destruct (f DbSave); cbn [snd];
    eapply wrote_write; try reflexivity; try apply HQ;
    cbn [transfers set_transfers log set_ticks]; auto.
  intros y (r & -> & Hr)%list_elem_of_fmap.
  destruct (String.eqb _ _); auto.
Qed.

Lemma along_Create x : Q x -> along (wrote Q) (Create x).
Proof.
  intros HQ f w. rewrite Create_run.
  destruct (f DbCreate); [| destruct (indexed w && collides x (transfers w))];
    cbn [snd]; eapply wrote_write; try reflexivity; try exact HQ;
    cbn [transfers set_transfers log]; auto.
  intros y [H | ->%list_elem_of_singleton]%elem_of_app; auto.
Qed.
End wrote.

Lemma wrote_mono (Q Q' : Transfer.t -> Prop) w w' :
  (forall x, Q x -> Q' x) -> wrote Q w w' -> wrote Q' w w'.
Proof.
  intros HQ [(evs & Ht & He) Hr]. split.
  - exists evs. split; [exact Ht |]. eauto.
  - intros x H. destruct (Hr x H); auto.
Qed.

Lemma wrote_InitiateTransfer senderID req f w :
  wrote (fun x => Transfer.Status x = "pending") w
    (snd (InitiateTransfer senderID req f w)).
Proof.
  rewrite InitiateTransfer_run. cbv zeta.
  assert (wrote (fun x => Transfer.Status x = "pending") w (log (GetUser senderID) w))
    as Hread by (eapply wrote_read; reflexivity).
  destruct (fst (getUser senderID f w)) as [u | e]; [| exact Hread].
  destruct (validateTransfer u req) as [[] | e]; [| exact Hread].
  set (x := new_transfer senderID u req (clock w) (ticks w)).
  set (w1 := set_ticks _ _).
  assert (wrote (fun x => Transfer.Status x = "pending") w (snd (Create x f w1))) as Hc.
  { transitivity w1; [exact Hread | apply along_Create; reflexivity]. }
  destruct (Create x f w1) as [[[] | e] w2]; cbn [snd] in *; [| exact Hc].
  transitivity w2; [exact Hc | eapply wrote_read; reflexivity].
Qed.

Lemma wrote_CompleteTransfer transferID f w :
  wrote (fun x => Transfer.Status x = "completed" \/ Transfer.Status x = "failed") w
    (snd (CompleteTransfer transferID f w)).
Proof.
  revert f w. change (along (wrote (fun x => Transfer.Status x = "completed" \/
                                            Transfer.Status x = "failed"))
                        (CompleteTransfer transferID)).
  unfold CompleteTransfer.
  apply along_bind; [apply _ | apply along_or_else, along_FindByID |].
  intros transfer.
  apply along_bind; [apply _ | apply along_or_else, along_getUser |].
  intros sender.
  destruct (User.Points sender <? Transfer.Points transfer).
  - apply along_bind; [apply _ | | intros; apply along_fail; apply _].
    apply along_discard, along_Update. intros t. right. reflexivity.
  - apply along_bind; [apply _ | apply along_or_else, along_updateUserPoints |].
    intros _.
    apply along_bind; [apply _ | | intros; apply along_ret; apply _].
    apply along_or_else, along_Update. intros t. left. reflexivity.
Qed.

Lemma wrote_GetUserTransfers userID f w :
  wrote (fun _ => False) w (snd (GetUserTransfers userID f w)).
Proof. apply along_FindBySenderID. Qed.

Lemma assigned_known s :
  assigned s -> s <> "expired" /\ s <> "cancelled".
Proof. intros [-> | [-> | ->]]; split; discriminate. Qed.

Lemma wrote_run op f w :
  wrote (fun x => assigned (Transfer.Status x)) w (run op f w).
Proof.
  destruct op as [senderID req | transferID | senderID]; cbn [run].
  - eapply wrote_mono; [| apply wrote_InitiateTransfer].
    unfold assigned. intros x ->. auto.
  - eapply wrote_mono; [| apply wrote_CompleteTransfer].
    unfold assigned. intros x [-> | ->]; auto.
  - eapply wrote_mono; [| apply wrote_GetUserTransfers]. contradiction.
Qed.

Lemma wrote_runs history w :
  wrote (fun x => assigned (Transfer.Status x)) w (runs history w).
Proof.
  revert w. induction history as [| [op f] history IH]; intros w; cbn [runs].
  - reflexivity.
  - transitivity (run op f w); [apply wrote_run | apply IH].
Qed.

(** C10: [InitiateTransfer] writes rows with status [pending] only,
    [CompleteTransfer] rows with status [completed] or [failed] only, and
    the listing writes nothing.  Over any history of these operations,
    whatever fails along the way, every row sent to the store and every row
    of the table that was not there at the start has one of these three
    statuses, hence neither [expired] nor [cancelled]. *)
Theorem statuses_assigned :
  (forall senderID req f w,
     wrote (fun x => Transfer.Status x = "pending") w
       (run (Initiate senderID req) f w)) /\
  (forall transferID f w,
     wrote (fun x => Transfer.Status x = "completed" \/ Transfer.Status x = "failed") w
       (run (Complete transferID) f w)) /\
  (forall senderID f w,
     wrote (fun _ => False) w (run (ListForSender senderID) f w)) /\
  (forall history w,
     wrote (fun x => assigned (Transfer.Status x) /\
                     Transfer.Status x <> "expired" /\
                     Transfer.Status x <> "cancelled") w
       (runs history w)).
Proof.
  split; [| split; [| split]].
  - intros. apply wrote_InitiateTransfer.
  - intros. apply wrote_CompleteTransfer.
  - intros. apply wrote_GetUserTransfers.
  - intros. eapply wrote_mono; [| apply wrote_runs].
    intros x H. split; [exact H | apply assigned_known, H].
Qed.


(** * Further properties of the service *)

(** ** Every way through [CompleteTransfer] *)

Lemma CompleteTransfer_completion transferID f w :
  completion transferID f w (CompleteTransfer transferID f w).
Proof.
  destruct (fst (FindByID transferID f w)) as [x | e] eqn:Hfind.
  2: {
    replace (CompleteTransfer transferID f w)
      with (@Err unit (New "transfer not found"), log (SqlSelectByID transferID) w).
    { eapply completion_not_found, Hfind. }
    unfold CompleteTransfer. cbv [bind or_else].
    rewrite FindByID_run in *. cbn [fst] in Hfind. rewrite Hfind. reflexivity. }
  destruct (fst (getUser (Transfer.SenderID x) f w)) as [u | e] eqn:Hget.
  2: {
    replace (CompleteTransfer transferID f w)
      with (@Err unit (New "failed to get sender details"), after_reads transferID x w).
    { eapply completion_no_sender; eassumption. }
    unfold CompleteTransfer. cbv [bind or_else].
    rewrite FindByID_run in *. cbn [fst] in Hfind. rewrite Hfind.
    rewrite getUser_run in *. cbn [fst users log] in *. rewrite Hget. reflexivity. }
  destruct (Z.lt_ge_cases (User.Points u) (Transfer.Points x)) as [Hlt | Hle].
  - rewrite (CompleteTransfer_short _ _ _ _ _ Hfind Hget Hlt).
    eapply completion_short; eassumption.
  - destruct (f HttpPut) eqn:Hput.
    + rewrite (CompleteTransfer_put_failed _ _ _ _ _ Hfind Hget Hle Hput).
      eapply completion_unpaid; eassumption.
    + pose proof (CompleteTransfer_commit _ _ _ _ _ Hfind Hget Hle Hput) as H.
      cbv zeta in H. rewrite H. eapply completion_paid; eassumption.
Qed.

(** The lookup fails exactly when the database does or no row has the id. *)
Lemma FindByID_Err f w transferID :
  (exists e, fst (FindByID transferID f w) = Err e) <->
  f DbFirst = true \/ row transferID w = None.
Proof.
  rewrite FindByID_run. cbn [fst]. split.
  - destruct (f DbFirst); [auto |].
    destruct (row transferID w); [intros [e [=]] | auto].
  - intros [-> | H]; [eauto |].
    destruct (f DbFirst); [eauto |]. rewrite H. eauto.
Qed.

(** X1: an id that no row carries (an empty table included), or a lookup the
    database fails, ends [CompleteTransfer] with "transfer not found" after
    the one SELECT: the Auth service is not contacted, and table, accounts
    and clock are as before. *)
Theorem Complete_unknown_transfer transferID f w :
  f DbFirst = true \/ row transferID w = None ->
  CompleteTransfer transferID f w
    = (Err (New "transfer not found"), log (SqlSelectByID transferID) w).
Proof.
  intros H. apply FindByID_Err in H as [e He].
  destruct (CompleteTransfer_completion transferID f w); congruence.
Qed.

Lemma Complete_unknown_transfer_witness :
  (no_faults DbFirst = true \/ row "transfer_7" Scenario.open_offer = None) /\
  CompleteTransfer "transfer_7" no_faults Scenario.open_offer
    = (Err (New "transfer not found"),
       log (SqlSelectByID "transfer_7") Scenario.open_offer).
Proof.
  split; [right; reflexivity |].
  apply Complete_unknown_transfer. right. reflexivity.
Defined.

(** X2: when the row is found but its sender does not resolve (the Auth
    service is unreachable, does not know the user, or answers garbage),
    [CompleteTransfer] ends with "failed to get sender details" after the
    lookup and the balance read: nothing is written, the row keeps its
    status. *)
Theorem Complete_sender_unresolved transferID f w x :
  fst (FindByID transferID f w) = Ok x ->
  (exists e, fst (getUser (Transfer.SenderID x) f w) = Err e) ->
  CompleteTransfer transferID f w
    = (Err (New "failed to get sender details"), after_reads transferID x w) /\
  transfers (after_reads transferID x w) = transfers w /\
  users (after_reads transferID x w) = users w /\
  trace (after_reads transferID x w)
    = trace w ++ [SqlSelectByID transferID; GetUser (Transfer.SenderID x)].
Proof.
  intros Hfind [e Hget]. split.
  - destruct (CompleteTransfer_completion transferID f w); congruence.
  - unfold after_reads. cbn [transfers users trace log].
    rewrite <- app_assoc. repeat split.
Qed.

Lemma Complete_sender_unresolved_witness :
  let w := set_users ∅ Scenario.open_offer in
  let x := Scenario.gift "pending" 1800000000000000000 in
  (fst (FindByID "transfer_1" no_faults w) = Ok x /\
   fst (getUser "u1" no_faults w) = Err (New "user not found")) /\
  (CompleteTransfer "transfer_1" no_faults w
     = (Err (New "failed to get sender details"), after_reads "transfer_1" x w) /\
   transfers (after_reads "transfer_1" x w) = transfers w /\
   users (after_reads "transfer_1" x w) = users w /\
   trace (after_reads "transfer_1" x w)
     = trace w ++ [SqlSelectByID "transfer_1"; GetUser "u1"]).
Proof.
  cbv zeta. split; [split; reflexivity |].
  apply (Complete_sender_unresolved "transfer_1" no_faults
           (set_users ∅ Scenario.open_offer)
           (Scenario.gift "pending" 1800000000000000000)).
  - reflexivity.
  - eexists. reflexivity.
Defined.

(** What a save leaves behind. *)
Lemma Update_world x f w :
  let x' := Transfer.set_UpdatedAt (clock w (ticks w)) x in
  let w' := snd (Update x f w) in
  users w' = users w /\ indexed w' = indexed w /\ clock w' = clock w /\
  ticks w' = S (ticks w) /\
  trace w' = trace w ++ [SqlUpdate x'] /\
  transfers w' =
    (if f DbSave then transfers w
     else map (fun r => if String.eqb (Transfer.ID r) (Transfer.ID x) then x' else r)
            (transfers w)).
Proof.
  pose proof (Update_run f w x) as H. cbv zeta in *. rewrite H.
  destruct (f DbSave); repeat split.
Qed.

(** X3: the gap the code leaves open.  When the balance has been written and
    the save of the [completed] row is then refused, [CompleteTransfer]
    returns "failed to complete transfer": the sender is debited, but the
    table is as before, the row keeping its old status.  Completing the same
    id again, the balance still covering the points, debits the sender a
    second time. *)
Theorem Complete_debit_without_record transferID f w x u :
  fst (FindByID transferID f w) = Ok x ->
  fst (getUser (Transfer.SenderID x) f w) = Ok u ->
  Transfer.Points x <= User.Points u ->
  f HttpPut = false ->
  f DbSave = true ->
  let debited := int_sub (User.Points u) (Transfer.Points x) in
  let w' := snd (CompleteTransfer transferID f w) in
  let retry := CompleteTransfer transferID no_faults w' in
  fst (CompleteTransfer transferID f w) = Err (New "failed to complete transfer") /\
  balance (Transfer.SenderID x) w' = Some debited /\
  transfers w' = transfers w /\
  (Transfer.Points x <= debited ->
   fst retry = Ok tt /\
   balance (Transfer.SenderID x) (snd retry)
     = Some (int_sub debited (Transfer.Points x))).
Proof.
  intros Hfind Hget Hle Hput Hsave.
  pose proof (CompleteTransfer_commit _ _ _ _ _ Hfind Hget Hle Hput) as H.
  cbv zeta in *. rewrite H, Hsave. cbn [fst snd].
  match goal with |- context [Update ?y f ?v] =>
    destruct (Update_world y f v) as (Hu & _ & _ & _ & _ & Ht); set (w' := snd (Update y f v)) in * end.
  rewrite Hsave in Ht. cbn [users transfers set_users log after_reads] in Hu, Ht.
  unfold after_reads in Ht. cbn [transfers log] in Ht.
  assert (users w' !! Transfer.SenderID x
          = Some (User.set_Points (int_sub (User.Points u) (Transfer.Points x)) u))
    as Hsender by (rewrite Hu; apply lookup_insert_eq).
  repeat split.
  - unfold balance. rewrite Hsender. reflexivity.
  - exact Ht.
  - assert (fst (FindByID transferID no_faults w') = Ok x) as Hfind'.
    { apply FindByID_Ok in Hfind as [_ Hrow]. apply FindByID_Ok.
      split; [reflexivity |]. unfold row in *. rewrite Ht. exact Hrow. }
    assert (fst (getUser (Transfer.SenderID x) no_faults w')
            = Ok (User.set_Points (int_sub (User.Points u) (Transfer.Points x)) u))
      as Hget'.
    { apply getUser_Ok. repeat split. exact Hsender. }
    apply (CompleteTransfer_completes _ _ _ _ _ Hfind' Hget'); [assumption | reflexivity ..].
  - assert (fst (FindByID transferID no_faults w') = Ok x) as Hfind'.
    { apply FindByID_Ok in Hfind as [_ Hrow]. apply FindByID_Ok.
      split; [reflexivity |]. unfold row in *. rewrite Ht. exact Hrow. }
    assert (fst (getUser (Transfer.SenderID x) no_faults w')
            = Ok (User.set_Points (int_sub (User.Points u) (Transfer.Points x)) u))
      as Hget'.
    { apply getUser_Ok. repeat split. exact Hsender. }
    apply (CompleteTransfer_completes _ _ _ _ _ Hfind' Hget'); [assumption | reflexivity ..].
Qed.

Lemma Complete_debit_without_record_witness :
  let w := Scenario.open_offer in
  let f := Scenario.save_fails in
  let x := Scenario.gift "pending" 1800000000000000000 in
  let w' := snd (CompleteTransfer "transfer_1" f w) in
  let retry := CompleteTransfer "transfer_1" no_faults w' in
  (fst (FindByID "transfer_1" f w) = Ok x /\
   fst (getUser "u1" f w) = Ok Scenario.ann /\
   30 <= 100 /\ f HttpPut = false /\ f DbSave = true) /\
  (fst (CompleteTransfer "transfer_1" f w) = Err (New "failed to complete transfer") /\
   balance "u1" w' = Some (int_sub 100 30) /\
   transfers w' = transfers w /\
   (30 <= int_sub 100 30 ->
    fst retry = Ok tt /\
    balance "u1" (snd retry) = Some (int_sub (int_sub 100 30) 30))).
Proof.
  cbv zeta. split.
  - repeat split; try reflexivity. lia.
  - apply (Complete_debit_without_record "transfer_1" Scenario.save_fails
             Scenario.open_offer (Scenario.gift "pending" 1800000000000000000)
             Scenario.ann); try reflexivity. vm_compute. discriminate.
Defined.

(** X4: an error that [CompleteTransfer] returns is one of five errors of
    its own; the errors of the database and of the transport never reach
    the caller. *)
Theorem CompleteTransfer_error_texts transferID f w e :
  fst (CompleteTransfer transferID f w) = Err e ->
  exists msg, msg ∈ CompleteTransfer_errors /\ e = New msg.
Proof.
  unfold CompleteTransfer_errors.
  destruct (CompleteTransfer_completion transferID f w); cbn [fst].
  5: destruct (f DbSave); [| discriminate].
  all: intros [= <-]; eexists; split; [| reflexivity]; set_solver.
Qed.

Lemma CompleteTransfer_error_texts_witness :
  fst (CompleteTransfer "transfer_7" Scenario.save_fails Scenario.open_offer)
    = Err (New "transfer not found") /\
  exists msg, msg ∈ CompleteTransfer_errors /\ New "transfer not found" = New msg.
Proof.
  split; [reflexivity |].
  apply (CompleteTransfer_error_texts "transfer_7" Scenario.save_fails
           Scenario.open_offer).
  reflexivity.
Defined.

(** The accounts after [CompleteTransfer]: as before, or with the balance
    of the row's sender replaced. *)
Lemma Complete_users transferID f w :
  let r := CompleteTransfer transferID f w in
  users (snd r) = users w \/
  exists x u,
    fst (FindByID transferID f w) = Ok x /\
    fst (getUser (Transfer.SenderID x) f w) = Ok u /\
    Transfer.Points x <= User.Points u /\
    users (snd r)
      = <[Transfer.SenderID x :=
            User.set_Points (int_sub (User.Points u) (Transfer.Points x)) u]> (users w) /\
    (fst r = Ok tt \/ fst r = Err (New "failed to complete transfer")).
Proof.
  cbv zeta.
  destruct (CompleteTransfer_completion transferID f w) as [e H | x e H1 H2
    | x u H1 H2 H3 | x u H1 H2 H3 H4 | x u H1 H2 H3 H4]; cbn [fst snd].
  - left. reflexivity.
  - left. reflexivity.
  - left. match goal with |- context [Update ?y f ?v] =>
      destruct (Update_world y f v) as (-> & _) end. reflexivity.
  - left. reflexivity.
  - right. exists x, u. repeat split; try assumption.
    + match goal with |- context [Update ?y f ?v] =>
        destruct (Update_world y f v) as (-> & _) end. reflexivity.
    + destruct (f DbSave); auto.
Qed.

(** X5: the accounts under [CompleteTransfer].  No account appears or
    disappears, and every account keeps its id, address and name.  A
    balance changes only for the sender of the row found under the id, only
    to that balance less the points of the row, and only in a call that ends
    well or with "failed to complete transfer". *)
Theorem Complete_accounts transferID f w userID :
  let r := CompleteTransfer transferID f w in
  match users w !! userID, users (snd r) !! userID with
  | None, None => True
  | Some u, Some u' =>
      User.ID u' = User.ID u /\ User.Email u' = User.Email u /\
      User.Name u' = User.Name u /\
      (User.Points u' = User.Points u \/
       exists x,
         row transferID w = Some x /\ Transfer.SenderID x = userID /\
         User.Points u' = int_sub (User.Points u) (Transfer.Points x) /\
         (fst r = Ok tt \/ fst r = Err (New "failed to complete transfer")))
  | _, _ => False
  end.
Proof.
  cbv zeta.
  destruct (Complete_users transferID f w) as [-> | (x & u & Hx & Hu & _ & -> & Hr)].
  - destruct (users w !! userID); auto.
  - apply FindByID_Ok in Hx as [_ Hrow]. apply getUser_Ok in Hu as (_ & Hu & _).
    destruct (decide (Transfer.SenderID x = userID)) as [<- | Hne].
    + rewrite lookup_insert_eq, Hu. cbn. repeat split. right. exists x. auto.
    + rewrite lookup_insert_ne by exact Hne. destruct (users w !! userID); auto.
Qed.

(** X6: [CompleteTransfer] never overdraws.  For a row with non-negative
    points, whatever fails on the way, the sender's balance afterwards is
    the balance before, or the balance before less the points and not below
    zero. *)
Theorem Complete_never_overdraws transferID f w x u :
  fst (FindByID transferID f w) = Ok x ->
  fst (getUser (Transfer.SenderID x) f w) = Ok u ->
  in_int (User.Points u) ->
  0 <= Transfer.Points x ->
  exists after,
    balance (Transfer.SenderID x) (snd (CompleteTransfer transferID f w)) = Some after /\
    (after = User.Points u \/
     after = User.Points u - Transfer.Points x /\ 0 <= after).
Proof.
  intros Hfind Hget Hint Hpos.
  pose proof Hget as (_ & Hu & _)%getUser_Ok.
  destruct (Complete_users transferID f w) as [H | (x' & u' & Hx & Hu' & Hle & H & _)].
  - exists (User.Points u). unfold balance. rewrite H, Hu. auto.
  - assert (x' = x) as -> by congruence. assert (u' = u) as -> by congruence.
    exists (User.Points u - Transfer.Points x). unfold balance.
    rewrite H, lookup_insert_eq. cbn. rewrite int_sub_debit by (auto; lia).
    split; [reflexivity | right; lia].
Qed.

Lemma Complete_never_overdraws_witness :
  let w := Scenario.open_offer in
  let x := Scenario.gift "pending" 1800000000000000000 in
  (fst (FindByID "transfer_1" no_faults w) = Ok x /\
   fst (getUser "u1" no_faults w) = Ok Scenario.ann /\
   in_int 100 /\ 0 <= 30) /\
  exists after,
    balance "u1" (snd (CompleteTransfer "transfer_1" no_faults w)) = Some after /\
    (after = 100 \/ after = 100 - 30 /\ 0 <= after).
Proof.
  cbv zeta. split.
  - repeat split; try reflexivity; vm_compute; discriminate.
  - apply (Complete_never_overdraws "transfer_1" no_faults Scenario.open_offer
             (Scenario.gift "pending" 1800000000000000000) Scenario.ann);
      try reflexivity; [split |]; vm_compute; discriminate.
Defined.

(** ** The table under [CompleteTransfer] *)

Section saved_rows.
Context (x x' : Transfer.t).
Hypothesis same_ID : Transfer.ID x' = Transfer.ID x.

Local Abbreviation save :=
  (fun r : Transfer.t => if String.eqb (Transfer.ID r) (Transfer.ID x) then x' else r).

Lemma saved_rows_ID rows : Transfer.ID <$> map save rows = Transfer.ID <$> rows.
Proof.
  induction rows as [| r rows IH]; [reflexivity |].
  cbn [map fmap list_fmap] in *. f_equal; [| exact IH].
  destruct (String.eqb_spec (Transfer.ID r) (Transfer.ID x)); congruence.
Qed.

Lemma saved_rows_other rows (i : nat) r :
  rows !! i = Some r -> Transfer.ID r <> Transfer.ID x -> map save rows !! i = Some r.
Proof.
  revert i. induction rows as [| r0 rows IH]; intros [| i] H Hne; try discriminate.
  - cbn in *. injection H as ->.
    destruct (String.eqb_spec (Transfer.ID r) (Transfer.ID x)); congruence.
  - cbn in *. apply IH; assumption.
Qed.

Lemma saved_rows_immutable rows :
  (forall r, r ∈ rows -> Transfer.ID r = Transfer.ID x -> immutable r = immutable x') ->
  immutable <$> map save rows = immutable <$> rows.
Proof.
  induction rows as [| r rows IH]; intros H; [reflexivity |].
  cbn [map fmap list_fmap] in *. f_equal.
  - destruct (String.eqb_spec (Transfer.ID r) (Transfer.ID x)) as [Heq |]; [| reflexivity].
    symmetry. apply H; [left | exact Heq].
  - apply IH. intros r' Hr'. apply H. right. exact Hr'.
Qed.
End saved_rows.

(** Where ids are unique, a row is known by its id. *)
Lemma NoDup_ID_eq (rows : list Transfer.t) r x :
  NoDup (Transfer.ID <$> rows) -> r ∈ rows -> x ∈ rows ->
  Transfer.ID r = Transfer.ID x -> r = x.
Proof.
  induction rows as [| r0 rows IH]; intros Hnd Hr Hx Heq.
  - apply elem_of_nil in Hr. contradiction.
  - cbn in Hnd. apply NoDup_cons in Hnd as [Hnotin Hnd].
    apply elem_of_cons in Hr as [-> | Hr]; apply elem_of_cons in Hx as [-> | Hx].
    + reflexivity.
    + exfalso. apply Hnotin. rewrite Heq. apply list_elem_of_fmap_2, Hx.
    + exfalso. apply Hnotin. rewrite <- Heq. apply list_elem_of_fmap_2, Hr.
    + apply IH; assumption.
Qed.

(** The table after [CompleteTransfer]: as before, or with the rows of the
    completed id saved over. *)
Lemma Complete_table transferID f w :
  transfers (snd (CompleteTransfer transferID f w)) = transfers w \/
  exists x x',
    row transferID w = Some x /\
    immutable x' = immutable x /\
    (Transfer.Status x' = "completed" \/ Transfer.Status x' = "failed") /\
    transfers (snd (CompleteTransfer transferID f w))
      = map (fun r => if String.eqb (Transfer.ID r) (Transfer.ID x) then x' else r)
          (transfers w).
Proof.
  destruct (CompleteTransfer_completion transferID f w) as [e H | x e H1 H2
    | x u H1 H2 H3 | x u H1 H2 H3 H4 | x u H1 H2 H3 H4]; cbn [snd];
    try (left; reflexivity).
  - match goal with |- context [Update ?y f ?v] =>
      destruct (Update_world y f v) as (_ & _ & _ & _ & _ & Ht) end.
    rewrite Ht. destruct (f DbSave); [left; reflexivity | right].
    apply FindByID_Ok in H1 as [_ Hrow].
    eexists x, _. split; [exact Hrow |]. split; [| split; [| reflexivity]].
    + reflexivity.
    + right. reflexivity.
  - match goal with |- context [Update ?y f ?v] =>
      destruct (Update_world y f v) as (_ & _ & _ & _ & _ & Ht) end.
    rewrite Ht. destruct (f DbSave); [left; reflexivity | right].
    apply FindByID_Ok in H1 as [_ Hrow].
    eexists x, _. split; [exact Hrow |]. split; [| split; [| reflexivity]].
    + reflexivity.
    + left. reflexivity.
Qed.

(** X7: [CompleteTransfer] neither adds nor removes a row nor changes an id,
    and it leaves every row with another id exactly as it was, at its place
    in the table. *)
Theorem Complete_other_rows transferID f w :
  let w' := snd (CompleteTransfer transferID f w) in
  length (transfers w') = length (transfers w) /\
  Transfer.ID <$> transfers w' = Transfer.ID <$> transfers w /\
  (forall (i : nat) r,
     transfers w !! i = Some r -> Transfer.ID r <> transferID ->
     transfers w' !! i = Some r).
Proof.
  cbv zeta.
  destruct (Complete_table transferID f w) as [-> | (x & x' & Hrow & Him & _ & ->)];
    [auto |].
  assert (Transfer.ID x' = Transfer.ID x) as HID by (injection Him; auto).
  split; [apply length_map |]. split; [apply saved_rows_ID, HID |].
  intros i r Hi Hne. apply saved_rows_other; [exact Hi |].
  rewrite (row_ID _ _ _ Hrow). exact Hne.
Qed.

(** X8: on a table whose ids are unique, [CompleteTransfer] changes nothing
    of any row but the status and the time of the last update: sender,
    addresses, points, claim token, expiry and creation time of every row
    stay as they were created. *)
Theorem Complete_keeps_immutable transferID f w :
  NoDup (Transfer.ID <$> transfers w) ->
  immutable <$> transfers (snd (CompleteTransfer transferID f w))
    = immutable <$> transfers w.
Proof.
  intros Hnd.
  destruct (Complete_table transferID f w) as [-> | (x & x' & Hrow & Him & _ & ->)];
    [reflexivity |].
  apply saved_rows_immutable. intros r Hr Heq.
  rewrite (NoDup_ID_eq _ r x Hnd Hr (row_elem_of _ _ _ Hrow) Heq). symmetry. exact Him.
Qed.

Lemma Complete_keeps_immutable_witness :
  NoDup (Transfer.ID <$> transfers Scenario.open_offer) /\
  immutable <$> transfers (snd (CompleteTransfer "transfer_1" no_faults Scenario.open_offer))
    = immutable <$> transfers Scenario.open_offer.
Proof.
  assert (NoDup (Transfer.ID <$> transfers Scenario.open_offer)) as H.
  { cbn. apply NoDup_singleton. }
  split; [exact H |].
  apply (Complete_keeps_immutable "transfer_1" no_faults Scenario.open_offer H).
Defined.

(** ** Every way through [InitiateTransfer] *)

Lemma InitiateTransfer_initiation senderID req f w :
  initiation senderID req f w (InitiateTransfer senderID req f w).
Proof.
  rewrite InitiateTransfer_run. cbv zeta.
  destruct (fst (getUser senderID f w)) as [u | e] eqn:Hget.
  2: { eapply initiation_no_sender, Hget. }
  destruct (validateTransfer u req) as [[] | e] eqn:Hvalid.
  2: { eapply initiation_invalid; eassumption. }
  pose proof (initiation_refused senderID req f w u) as Hrefused.
  pose proof (initiation_created senderID req f w u Hget Hvalid) as Hcreated.
  cbv zeta in Hrefused, Hcreated.
  rewrite Create_run in *. cbn [indexed transfers set_ticks log] in *.
  destruct (f DbCreate).
  - eapply Hrefused; eauto.
  - destruct (indexed w && collides _ (transfers w)) eqn:Hc.
    + eapply Hrefused; eauto.
    + apply Hcreated; reflexivity.
Qed.

Lemma validateTransfer_Err u req e :
  validateTransfer u req = Err e ->
  e = New "insufficient points" \/
  e = New "cannot transfer points to yourself" \/
  e = New "points must be greater than zero".
Proof.
  unfold validateTransfer.
  destruct (_ <? _); [intros [= <-]; auto |].
  destruct (String.eqb _ _); [intros [= <-]; auto |].
  destruct (_ <=? _); [intros [= <-]; auto | discriminate].
Qed.

Lemma validateTransfer_Ok u req :
  validateTransfer u req = Ok tt <->
  TransferRequest.Points req <= User.Points u /\
  User.Email u <> TransferRequest.ReceiverEmail req /\
  0 < TransferRequest.Points req.
Proof.
  unfold validateTransfer.
  destruct (Z.ltb_spec (User.Points u) (TransferRequest.Points req)) as [H1 | H1].
  { split; [discriminate | intros (? & ? & ?); exfalso; lia]. }
  destruct (String.eqb_spec (User.Email u) (TransferRequest.ReceiverEmail req))
    as [H2 | H2].
  { split; [discriminate | intros (? & ? & ?); contradiction]. }
  destruct (Z.leb_spec (TransferRequest.Points req) 0) as [H3 | H3].
  { split; [discriminate | intros (? & ? & ?); exfalso; lia]. }
  split; [intros _; repeat split; (lia || assumption) | reflexivity].
Qed.

Lemma collides_false x rows :
  collides x rows = false ->
  forall r, r ∈ rows ->
            Transfer.ID r <> Transfer.ID x /\ Transfer.Token r <> Transfer.Token x.
Proof.
  unfold collides. intros Hc r Hr. apply list_elem_of_In in Hr.
  pose proof (existsb_exists
                (fun r0 => String.eqb (Transfer.ID r0) (Transfer.ID x)
                           || String.eqb (Transfer.Token r0) (Transfer.Token x)) rows)
    as [_ Hex].
  split; intros Heq; rewrite Hex in Hc; try discriminate;
    exists r; (split; [exact Hr |]);
    rewrite Heq, String.eqb_refl, ?orb_true_r; reflexivity.
Qed.

(** A successful initiation, turned inside out. *)
Lemma InitiateTransfer_created senderID req f w x :
  fst (InitiateTransfer senderID req f w) = Ok x ->
  exists u,
    users w !! senderID = Some u /\
    validateTransfer u req = Ok tt /\
    x = new_transfer senderID u req (clock w) (ticks w) /\
    (indexed w = true ->
     forall r, r ∈ transfers w ->
               Transfer.ID r <> Transfer.ID x /\ Transfer.Token r <> Transfer.Token x) /\
    snd (InitiateTransfer senderID req f w)
      = log (GoSendTransferEmail x)
          (set_transfers (transfers w ++ [x])
             (log (SqlInsert x)
                (set_ticks (5 + ticks w) (log (GetUser senderID) w)))).
Proof.
  destruct (InitiateTransfer_initiation senderID req f w) as [e' H | u e' H1 H2
    | u e' H1 H2 x0 w1 H3 | u H1 H2 x0 w1 H3 H4]; try subst w1;
    cbn [fst snd]; intros [= <-].
  apply getUser_Ok in H1 as (_ & Hu & _).
  exists u. split; [exact Hu |]. split; [exact H2 |]. split; [reflexivity |].
  split; [| reflexivity].
  intros Hix r Hr. rewrite Hix in H4. cbn [andb] in H4.
  exact (collides_false _ _ H4 r Hr).
Qed.

(** A refused initiation: the error is one of the five, and no row was
    added. *)
Lemma InitiateTransfer_Err senderID req f w e :
  fst (InitiateTransfer senderID req f w) = Err e ->
  (exists msg, msg ∈ InitiateTransfer_errors /\ e = New msg) /\
  transfers (snd (InitiateTransfer senderID req f w)) = transfers w.
Proof.
  unfold InitiateTransfer_errors.
  destruct (InitiateTransfer_initiation senderID req f w) as [e' H | u e' H1 H2
    | u e' H1 H2 x0 w1 H3 | u H1 H2 x0 w1 H3 H4]; try subst w1;
    cbn [fst snd]; intros [= <-]; (split; [| reflexivity]).
  - eexists; split; [| reflexivity]; set_solver.
  - apply validateTransfer_Err in H2 as [-> | [-> | ->]];
      (eexists; split; [| reflexivity]; set_solver).
  - eexists; split; [| reflexivity]; set_solver.
Qed.

(** X9: initiation never touches a balance.  Whatever its outcome,
    [InitiateTransfer] leaves the accounts as they were and sends no write
    to the Auth service; the points stay with the sender until the
    transfer is completed. *)
Theorem Initiate_no_debit senderID req f w :
  let w' := snd (InitiateTransfer senderID req f w) in
  users w' = users w /\
  exists evs, trace w' = trace w ++ evs /\
              forall userID points, PutPoints userID points ∉ evs.
Proof.
  cbv zeta.
  destruct (InitiateTransfer_initiation senderID req f w) as [e' H | u e' H1 H2
    | u e' H1 H2 x w1 H3 | u H1 H2 x w1 H3 H4]; try subst w1; cbn [snd];
    (split; [reflexivity |]);
    cbn [trace log set_transfers set_ticks]; rewrite <- ?app_assoc;
    eexists; (split; [reflexivity |]); intros userID points Hin;
    repeat (apply elem_of_cons in Hin as [Hin | Hin]; [discriminate |]);
    apply elem_of_nil in Hin; exact Hin.
Qed.

(** X10: a refused initiation leaves nothing behind.  When
    [InitiateTransfer] returns an error, the error is one of five texts of
    its own, the table is as before, and no notification is started.  When
    the error is not that of the store, not even an INSERT was sent and the
    clock was not read. *)
Theorem Initiate_refused_clean senderID req f w e :
  fst (InitiateTransfer senderID req f w) = Err e ->
  let w' := snd (InitiateTransfer senderID req f w) in
  (exists msg, msg ∈ InitiateTransfer_errors /\ e = New msg) /\
  transfers w' = transfers w /\
  (exists evs, trace w' = trace w ++ evs /\
               forall x, GoSendTransferEmail x ∉ evs) /\
  (e <> New "failed to create transfer" ->
   trace w' = trace w ++ [GetUser senderID] /\ ticks w' = ticks w).
Proof.
  unfold InitiateTransfer_errors. cbv zeta.
  destruct (InitiateTransfer_initiation senderID req f w) as [e' H | u e' H1 H2
    | u e' H1 H2 x w1 H3 | u H1 H2 x w1 H3 H4]; try subst w1;
    cbn [fst snd]; intros [= <-].
  - split; [eexists; split; [| reflexivity]; set_solver |].
    split; [reflexivity |]. split; [| auto].
    eexists. split; [reflexivity |]. intros x Hin.
    apply list_elem_of_singleton in Hin. discriminate.
  - split.
    { apply validateTransfer_Err in H2 as [-> | [-> | ->]];
        (eexists; split; [| reflexivity]; set_solver). }
    split; [reflexivity |]. split; [| auto].
    eexists. split; [reflexivity |]. intros x Hin.
    apply list_elem_of_singleton in Hin. discriminate.
  - split; [eexists; split; [| reflexivity]; set_solver |].
    split; [reflexivity |]. split; [| intros Hne; contradiction].
    cbn [trace log set_ticks]. rewrite <- app_assoc.
    eexists. split; [reflexivity |]. intros x0 Hin.
    repeat (apply elem_of_cons in Hin as [Hin | Hin]; [discriminate |]).
    apply elem_of_nil in Hin. exact Hin.
Qed.

Lemma Initiate_refused_clean_witness :
  let w := Scenario.open_offer in
  let req := Scenario.to_bob 500 in
  let w' := snd (InitiateTransfer "u1" req no_faults w) in
  fst (InitiateTransfer "u1" req no_faults w) = Err (New "insufficient points") /\
  ((exists msg, msg ∈ InitiateTransfer_errors /\ New "insufficient points" = New msg) /\
   transfers w' = transfers w /\
   (exists evs, trace w' = trace w ++ evs /\
                forall x, GoSendTransferEmail x ∉ evs) /\
   (New "insufficient points" <> New "failed to create transfer" ->
    trace w' = trace w ++ [GetUser "u1"] /\ ticks w' = ticks w)).
Proof.
  cbv zeta. split; [reflexivity |].
  apply (Initiate_refused_clean "u1" (Scenario.to_bob 500) no_faults Scenario.open_offer).
  reflexivity.
Defined.

(** X11: a successful initiation makes exactly three calls, in this order:
    it asks the Auth service for the sender, inserts the row, and only then
    starts the notification, handing it the very record it returns.  It
    reads the clock five times and leaves the accounts alone. *)
Theorem Initiate_created_effects senderID req f w x :
  fst (InitiateTransfer senderID req f w) = Ok x ->
  let w' := snd (InitiateTransfer senderID req f w) in
  trace w' = trace w ++ [GetUser senderID; SqlInsert x; GoSendTransferEmail x] /\
  ticks w' = (5 + ticks w)%nat /\
  users w' = users w /\
  (indexed w = true ->
   forall r, r ∈ transfers w ->
             Transfer.ID r <> Transfer.ID x /\ Transfer.Token r <> Transfer.Token x).
Proof.
  intros (u & _ & _ & _ & Hfresh & Hworld)%InitiateTransfer_created.
  cbv zeta. rewrite Hworld.
  cbn [trace ticks users log set_transfers set_ticks]. rewrite <- !app_assoc.
  repeat split; apply Hfresh; assumption.
Qed.

Lemma Initiate_created_effects_witness :
  let w := Scenario.open_offer in
  let x := new_transfer "u1" Scenario.ann (Scenario.to_bob 60) (clock w) (ticks w) in
  let w' := snd (InitiateTransfer "u1" (Scenario.to_bob 60) no_faults w) in
  fst (InitiateTransfer "u1" (Scenario.to_bob 60) no_faults w) = Ok x /\
  (trace w' = trace w ++ [GetUser "u1"; SqlInsert x; GoSendTransferEmail x] /\
   ticks w' = (5 + ticks w)%nat /\
   users w' = users w /\
   (indexed w = true ->
    forall r, r ∈ transfers w ->
              Transfer.ID r <> Transfer.ID x /\ Transfer.Token r <> Transfer.Token x)).
Proof.
  cbv zeta. split; [vm_compute; reflexivity |].
  apply (Initiate_created_effects "u1" (Scenario.to_bob 60) no_faults Scenario.open_offer).
  vm_compute. reflexivity.
Defined.

(** X12: what every record created by [InitiateTransfer] satisfies.  Its
    sender is the caller, its sender address is the address of the user
    that [getUser] returned for the caller, receiver and points are those
    of the request; the points are positive and covered by the balance of
    that user, and the receiver's address is not the user's.  Id and token
    are the decimal nanoseconds of the first and second clock reading
    behind their prefixes. *)
Theorem Initiate_record_invariants senderID req f w x :
  fst (InitiateTransfer senderID req f w) = Ok x ->
  exists u,
    fst (getUser senderID f w) = Ok u /\
    Transfer.SenderID x = senderID /\
    Transfer.SenderEmail x = User.Email u /\
    Transfer.ReceiverEmail x = TransferRequest.ReceiverEmail req /\
    Transfer.ReceiverName x = TransferRequest.ReceiverName req /\
    Transfer.Points x = TransferRequest.Points req /\
    0 < Transfer.Points x <= User.Points u /\
    Transfer.SenderEmail x <> Transfer.ReceiverEmail x /\
    Transfer.ID x = "transfer_" +:+ pretty (clock w (ticks w)) /\
    Transfer.Token x = "token_" +:+ pretty (clock w (1 + ticks w)%nat).
Proof.
  intros H. apply InitiateTransfer_Ok in H as (u & Hget & Hvalid & -> & _).
  apply validateTransfer_Ok in Hvalid as (Hle & Hne & Hpos).
  exists u. unfold new_transfer.
  cbn [Transfer.SenderID Transfer.SenderEmail Transfer.ReceiverEmail
       Transfer.ReceiverName Transfer.Points Transfer.ID Transfer.Token].
  repeat split; (assumption || lia).
Qed.

Lemma Initiate_record_invariants_witness :
  let w := Scenario.open_offer in
  let req := Scenario.to_bob 60 in
  let x := new_transfer "u1" Scenario.ann req (clock w) (ticks w) in
  fst (InitiateTransfer "u1" req no_faults w) = Ok x /\
  exists u,
    fst (getUser "u1" no_faults w) = Ok u /\
    Transfer.SenderID x = "u1" /\
    Transfer.SenderEmail x = User.Email u /\
    Transfer.ReceiverEmail x = TransferRequest.ReceiverEmail req /\
    Transfer.ReceiverName x = TransferRequest.ReceiverName req /\
    Transfer.Points x = TransferRequest.Points req /\
    0 < Transfer.Points x <= User.Points u /\
    Transfer.SenderEmail x <> Transfer.ReceiverEmail x /\
    Transfer.ID x = "transfer_" +:+ pretty (clock w (ticks w)) /\
    Transfer.Token x = "token_" +:+ pretty (clock w (1 + ticks w)%nat).
Proof.
  cbv zeta. split; [vm_compute; reflexivity |].
  apply (Initiate_record_invariants "u1" (Scenario.to_bob 60) no_faults
           Scenario.open_offer).
  vm_compute. reflexivity.
Defined.

(** ** What stays put over any history *)

#[global] Instance framed_preorder : PreOrder framed.
Proof.
  split.
  - intros w. unfold framed. auto.
  - intros w1 w2 w3 (Hi1 & Hc1 & Ht1) (Hi2 & Hc2 & Ht2). unfold framed.
    rewrite Hi2, Hc2. repeat split; [assumption .. | lia].
Qed.

Lemma framed_run op f w : framed w (run op f w).
Proof.
  destruct op as [senderID req | transferID | senderID]; cbn [run].
  - destruct (InitiateTransfer_initiation senderID req f w) as [e' H | u e' H1 H2
      | u e' H1 H2 x0 w1 H3 | u H1 H2 x0 w1 H3 H4]; try subst w1;
      cbn [snd]; unfold framed;
      cbn [indexed clock ticks log set_transfers set_ticks]; repeat split; lia.
  - destruct (CompleteTransfer_completion transferID f w) as [e H | x e H1 H2
      | x u H1 H2 H3 | x u H1 H2 H3 H4 | x u H1 H2 H3 H4]; cbn [snd];
      try (unfold framed, after_reads; cbn [indexed clock ticks log]; repeat split; lia).
    + match goal with |- context [Update ?y f ?v] =>
        destruct (Update_world y f v) as (_ & Hi & Hc & Ht & _) end.
      unfold framed. rewrite Hi, Hc, Ht. unfold after_reads.
      cbn [indexed clock ticks log]. repeat split; lia.
    + match goal with |- context [Update ?y f ?v] =>
        destruct (Update_world y f v) as (_ & Hi & Hc & Ht & _) end.
      unfold framed. rewrite Hi, Hc, Ht. unfold after_reads.
      cbn [indexed clock ticks log set_users]. repeat split; lia.
  - unfold GetUserTransfers. rewrite FindBySenderID_run. unfold framed.
    cbn [snd indexed clock ticks log]. repeat split; lia.
Qed.

Lemma framed_runs history w : framed w (runs history w).
Proof.
  revert w. induction history as [| [op f] history IH]; intros w; cbn [runs].
  - reflexivity.
  - transitivity (run op f w); [apply framed_run | apply IH].
Qed.

(** X13: on a clock that shows a later instant at every reading, ids and
    claim tokens are unique: two records initiated one after the other,
    with any history of operations and failures in between, differ in
    their id and in their token. *)
Theorem Initiate_unique_on_advancing_clock s1 req1 f1 s2 req2 f2 history w x1 x2 :
  (forall n m : nat, (n < m)%nat -> clock w n < clock w m) ->
  fst (InitiateTransfer s1 req1 f1 w) = Ok x1 ->
  fst (InitiateTransfer s2 req2 f2
         (runs history (snd (InitiateTransfer s1 req1 f1 w)))) = Ok x2 ->
  Transfer.ID x1 <> Transfer.ID x2 /\ Transfer.Token x1 <> Transfer.Token x2.
Proof.
  intros Hclock H1 H2.
  apply InitiateTransfer_created in H1 as (u1 & _ & _ & -> & _ & Hworld).
  apply InitiateTransfer_created in H2 as (u2 & _ & _ & -> & _ & _).
  pose proof (framed_runs history (snd (InitiateTransfer s1 req1 f1 w)))
    as (_ & Hc & Ht).
  rewrite Hworld in Hc at 2. rewrite Hworld in Ht at 1.
  cbn [clock ticks log set_transfers set_ticks] in Hc, Ht.
  set (w2 := runs history _) in *.
  unfold new_transfer. cbn [Transfer.ID Transfer.Token]. rewrite Hc.
  split; intros Heq%append_inj_r; apply (inj (pretty : Z -> string)) in Heq.
  - assert (ticks w < ticks w2)%nat as Hlt by lia.
    specialize (Hclock _ _ Hlt). lia.
  - assert (1 + ticks w < 1 + ticks w2)%nat as Hlt by lia.
    specialize (Hclock _ _ Hlt). lia.
Qed.

Lemma Initiate_unique_on_advancing_clock_witness :
  let w := Scenario.open_offer in
  let x1 := new_transfer "u1" Scenario.ann (Scenario.to_bob 60) (clock w) 0 in
  let x2 := new_transfer "u1" Scenario.ann (Scenario.to_bob 10) (clock w) 5 in
  ((forall n m : nat, (n < m)%nat -> clock w n < clock w m) /\
   fst (InitiateTransfer "u1" (Scenario.to_bob 60) no_faults w) = Ok x1 /\
   fst (InitiateTransfer "u1" (Scenario.to_bob 10) no_faults
          (runs [] (snd (InitiateTransfer "u1" (Scenario.to_bob 60) no_faults w))))
     = Ok x2) /\
  (Transfer.ID x1 <> Transfer.ID x2 /\ Transfer.Token x1 <> Transfer.Token x2).
Proof.
  assert (forall n m : nat, (n < m)%nat ->
            clock Scenario.open_offer n < clock Scenario.open_offer m) as Hclock.
  { intros n m Hlt. cbn. unfold Scenario.ticking. lia. }
  cbv zeta. split.
  - split; [exact Hclock |]. split; vm_compute; reflexivity.
  - apply (Initiate_unique_on_advancing_clock "u1" (Scenario.to_bob 60) no_faults
             "u1" (Scenario.to_bob 10) no_faults [] Scenario.open_offer);
      [exact Hclock | vm_compute; reflexivity ..].
Defined.

(** ** The keys of the table *)

Lemma immutable_keys (l1 l2 : list Transfer.t) :
  immutable <$> l1 = immutable <$> l2 ->
  Transfer.ID <$> l1 = Transfer.ID <$> l2 /\
  Transfer.Token <$> l1 = Transfer.Token <$> l2.
Proof.
  intros H. split.
  - apply (f_equal (fmap (fun i : _ * _ * _ * _ * _ * _ * _ * _ * _ =>
                            i.1.1.1.1.1.1.1.1))) in H.
    rewrite <- !list_fmap_compose in H. exact H.
  - apply (f_equal (fmap (fun i : _ * _ * _ * _ * _ * _ * _ * _ * _ => i.1.1.2))) in H.
    rewrite <- !list_fmap_compose in H. exact H.
Qed.

Lemma keyed_run op f w :
  indexed w = true -> keyed w -> keyed (run op f w).
Proof.
  intros Hix [HID HTok]. destruct op as [senderID req | transferID | senderID];
    cbn [run].
  - destruct (fst (InitiateTransfer senderID req f w)) as [x | e] eqn:Hr.
    + apply InitiateTransfer_created in Hr as (_ & _ & _ & _ & Hfresh & ->).
      specialize (Hfresh Hix). unfold keyed.
      cbn [transfers log set_transfers]. rewrite !fmap_app.
      split; apply NoDup_app; (split; [assumption |]);
        (split; [| apply NoDup_singleton]);
        intros k (r & -> & Hr)%list_elem_of_fmap Hk%list_elem_of_singleton;
        destruct (Hfresh r Hr); contradiction.
    + apply InitiateTransfer_Err in Hr as [_ Hrows].
      unfold keyed. rewrite Hrows. auto.
  - assert (immutable <$> transfers (snd (CompleteTransfer transferID f w))
            = immutable <$> transfers w) as [H1 H2]%immutable_keys.
    { destruct (Complete_table transferID f w)
        as [-> | (x & x' & Hrow & Him & _ & ->)]; [reflexivity |].
      apply saved_rows_immutable. intros r Hr Heq.
      rewrite (NoDup_ID_eq _ r x HID Hr (row_elem_of _ _ _ Hrow) Heq).
      symmetry. exact Him. }
    unfold keyed. rewrite H1, H2. auto.
  - unfold GetUserTransfers. rewrite FindBySenderID_run. exact (conj HID HTok).
Qed.

(** X14: on a table that carries the constraints of the schema (the table
    [db.AutoMigrate(&models.Transfer{})] makes), uniqueness of ids and of
    claim tokens is an invariant of the service: over any history of
    initiations, completions and listings, whatever fails along the way,
    no two rows share an id and no two rows share a token. *)
Theorem keyed_history history w :
  indexed w = true -> keyed w -> keyed (runs history w).
Proof.
  revert w. induction history as [| [op f] history IH]; intros w Hix Hkeyed;
    cbn [runs]; [exact Hkeyed |].
  apply IH.
  - destruct (framed_run op f w) as (-> & _). exact Hix.
  - apply keyed_run; assumption.
Qed.

Lemma keyed_history_witness :
  let history := [(Initiate "u1" (Scenario.to_bob 60), no_faults);
                  (Complete "transfer_1", no_faults)] in
  (indexed Scenario.open_offer = true /\ keyed Scenario.open_offer) /\
  keyed (runs history Scenario.open_offer).
Proof.
  assert (keyed Scenario.open_offer) as H.
  { split; cbn; apply NoDup_singleton. }
  cbv zeta. split; [split; [reflexivity | exact H] |].
  apply (keyed_history _ Scenario.open_offer eq_refl H).
Defined.

(** ** Claim tokens are unique *)

(** Where ids are unique, a completion keeps the id and the token of every
    row. *)
Lemma Complete_keys transferID f w :
  NoDup (Transfer.ID <$> transfers w) ->
  Transfer.ID <$> transfers (snd (CompleteTransfer transferID f w))
    = Transfer.ID <$> transfers w /\
  Transfer.Token <$> transfers (snd (CompleteTransfer transferID f w))
    = Transfer.Token <$> transfers w.
Proof.
  intros HID. apply immutable_keys.
  destruct (Complete_table transferID f w)
    as [-> | (x & x' & Hrow & Him & _ & ->)]; [reflexivity |].
  apply saved_rows_immutable. intros r Hr Heq.
  rewrite (NoDup_ID_eq _ r x HID Hr (row_elem_of _ _ _ Hrow) Heq).
  symmetry. exact Him.
Qed.

(** No operation takes a token out of the table. *)
Lemma tokens_kept_run op f w token :
  keyed w ->
  token ∈ Transfer.Token <$> transfers w ->
  token ∈ Transfer.Token <$> transfers (run op f w).
Proof.
  intros [HID _] Hin. destruct op as [senderID req | transferID | senderID];
    cbn [run].
  - destruct (fst (InitiateTransfer senderID req f w)) as [x | e] eqn:Hr.
    + apply InitiateTransfer_created in Hr as (_ & _ & _ & _ & _ & ->).
      cbn [transfers log set_transfers]. rewrite fmap_app.
      apply elem_of_app. left. exact Hin.
    + apply InitiateTransfer_Err in Hr as [_ ->]. exact Hin.
  - destruct (Complete_keys transferID f w HID) as [_ ->]. exact Hin.
  - unfold GetUserTransfers. rewrite FindBySenderID_run. exact Hin.
Qed.

(** Over any history on an indexed table: the constraints stay, ids and
    tokens stay unique, and every token stays in the table. *)
Lemma store_history history w :
  indexed w = true -> keyed w ->
  indexed (runs history w) = true /\
  keyed (runs history w) /\
  (forall token, token ∈ Transfer.Token <$> transfers w ->
                 token ∈ Transfer.Token <$> transfers (runs history w)).
Proof.
  revert w. induction history as [| [op f] history IH]; intros w Hix Hkeyed;
    cbn [runs]; [auto |].
  assert (indexed (run op f w) = true) as Hix'
    by (destruct (framed_run op f w) as (-> & _); exact Hix).
  pose proof (keyed_run op f w Hix Hkeyed) as Hkeyed'.
  destruct (IH _ Hix' Hkeyed') as (H1 & H2 & H3).
  split; [exact H1 |]. split; [exact H2 |].
  intros token Hin. apply H3, tokens_kept_run; assumption.
Qed.

(** C8: the table the service runs against carries the unique index on
    [token] (the gorm tag of [Transfer.Token], migrated by [main]).  On
    such a table, starting from rows with unique ids and tokens, any two
    records created by [InitiateTransfer] have different claim tokens,
    whatever the clock shows at either creation, whatever operations and
    failures lie between them; and the tokens of all rows of the table are
    pairwise different afterwards.  At one and the same instant
    [generateToken] yields the same text twice; the second record is then
    not created, the store refusing the row. *)
Theorem Initiate_tokens_differ s1 req1 f1 s2 req2 f2 history w x1 x2 :
  indexed w = true ->
  keyed w ->
  fst (InitiateTransfer s1 req1 f1 w) = Ok x1 ->
  let w1 := runs history (snd (InitiateTransfer s1 req1 f1 w)) in
  fst (InitiateTransfer s2 req2 f2 w1) = Ok x2 ->
  Transfer.Token x1 <> Transfer.Token x2 /\
  NoDup (Transfer.Token <$> transfers (snd (InitiateTransfer s2 req2 f2 w1))).
Proof.
  intros Hix Hkeyed H1 w1 H2.
  assert (indexed (snd (InitiateTransfer s1 req1 f1 w)) = true) as Hix1.
  { pose proof (framed_run (Initiate s1 req1) f1 w) as (Hi & _).
    cbn [run] in Hi. rewrite Hi. exact Hix. }
  pose proof (keyed_run (Initiate s1 req1) f1 w Hix Hkeyed) as Hkeyed1.
  cbn [run] in Hkeyed1.
  assert (Transfer.Token x1
            ∈ Transfer.Token <$> transfers (snd (InitiateTransfer s1 req1 f1 w)))
    as Hin1.
  { apply InitiateTransfer_Ok in H1 as (_ & _ & _ & _ & ->).
    rewrite fmap_app. apply elem_of_app. right. apply list_elem_of_singleton.
    reflexivity. }
  destruct (store_history history _ Hix1 Hkeyed1) as (Hix2 & Hkeyed2 & Hkept).
  fold w1 in Hix2, Hkeyed2, Hkept. apply Hkept in Hin1.
  split.
  - apply InitiateTransfer_created in H2 as (_ & _ & _ & _ & Hfresh & _).
    apply list_elem_of_fmap in Hin1 as (r & Heq & Hr).
    rewrite Heq. apply (Hfresh Hix2 r Hr).
  - apply (keyed_run (Initiate s2 req2) f2 w1 Hix2 Hkeyed2).
Qed.

Lemma Initiate_tokens_differ_witness :
  let w := Scenario.open_offer in
  let x1 := new_transfer "u1" Scenario.ann (Scenario.to_bob 60) (clock w) 0 in
  let x2 := new_transfer "u1" Scenario.ann (Scenario.to_bob 10) (clock w) 6 in
  let history := [(Complete "transfer_1", no_faults)] in
  let w1 := runs history (snd (InitiateTransfer "u1" (Scenario.to_bob 60) no_faults w)) in
  (indexed w = true /\ keyed w /\
   fst (InitiateTransfer "u1" (Scenario.to_bob 60) no_faults w) = Ok x1 /\
   fst (InitiateTransfer "u1" (Scenario.to_bob 10) no_faults w1) = Ok x2) /\
  (Transfer.Token x1 <> Transfer.Token x2 /\
   NoDup (Transfer.Token <$>
            transfers (snd (InitiateTransfer "u1" (Scenario.to_bob 10) no_faults w1)))).
Proof.
  assert (keyed Scenario.open_offer) as H.
  { split; cbn; apply NoDup_singleton. }
  cbv zeta. split.
  - split; [reflexivity |]. split; [exact H |]. split; vm_compute; reflexivity.
  - apply (Initiate_tokens_differ "u1" (Scenario.to_bob 60) no_faults
             "u1" (Scenario.to_bob 10) no_faults
             [(Complete "transfer_1", no_faults)] Scenario.open_offer);
      [reflexivity | exact H | vm_compute; reflexivity | vm_compute; reflexivity].
Defined.

(** ** Finding what was stored *)

Lemma find_app_new {A} (p : A -> bool) (rows : list A) x :
  (forall r, r ∈ rows -> p r = false) -> p x = true -> find p (rows ++ [x]) = Some x.
Proof.
  intros Hrows Hx. induction rows as [| r rows IH]; cbn [app find].
  - rewrite Hx. reflexivity.
  - rewrite (Hrows r) by left. apply IH. intros r' Hr'. apply Hrows. right. exact Hr'.
Qed.

Lemma FindByToken_run token f w :
  FindByToken token f w =
    ((if f DbFirst then Err ErrDatabase
      else match find (fun r => String.eqb (Transfer.Token r) token) (transfers w) with
           | Some x => Ok x
           | None => Err ErrRecordNotFound
           end), w).
Proof.
  unfold FindByToken. step. destruct (f DbFirst); step; [reflexivity |].
  destruct (find _ _); reflexivity.
Qed.

(** On an indexed table the new row is the one found under its id. *)
Lemma Initiate_row senderID req f w x :
  indexed w = true ->
  fst (InitiateTransfer senderID req f w) = Ok x ->
  row (Transfer.ID x) (snd (InitiateTransfer senderID req f w)) = Some x.
Proof.
  intros Hix (_ & _ & _ & _ & Hfresh & ->)%InitiateTransfer_created.
  unfold row. cbn [transfers log set_transfers].
  apply find_app_new; [| apply String.eqb_refl].
  intros r Hin. apply String.eqb_neq, (Hfresh Hix r Hin).
Qed.

(** X15: store and look up.  On a table with the constraints of the schema,
    the record a successful initiation returns is the row that a lookup by
    its id finds, and the row that a lookup by its claim token finds. *)
Theorem Initiate_then_find senderID req f w x :
  indexed w = true ->
  fst (InitiateTransfer senderID req f w) = Ok x ->
  let w' := snd (InitiateTransfer senderID req f w) in
  fst (FindByID (Transfer.ID x) no_faults w') = Ok x /\
  fst (FindByToken (Transfer.Token x) no_faults w') = Ok x.
Proof.
  intros Hix Hr. cbv zeta. split.
  - apply FindByID_Ok. split; [reflexivity |]. apply Initiate_row; assumption.
  - apply InitiateTransfer_created in Hr as (_ & _ & _ & _ & Hfresh & ->).
    rewrite FindByToken_run. cbn [fst no_faults transfers log set_transfers].
    rewrite find_app_new; [reflexivity | | apply String.eqb_refl].
    intros r Hin. apply String.eqb_neq, (Hfresh Hix r Hin).
Qed.

Lemma Initiate_then_find_witness :
  let w := Scenario.open_offer in
  let req := Scenario.to_bob 60 in
  let x := new_transfer "u1" Scenario.ann req (clock w) (ticks w) in
  let w' := snd (InitiateTransfer "u1" req no_faults w) in
  (indexed w = true /\ fst (InitiateTransfer "u1" req no_faults w) = Ok x) /\
  (fst (FindByID (Transfer.ID x) no_faults w') = Ok x /\
   fst (FindByToken (Transfer.Token x) no_faults w') = Ok x).
Proof.
  cbv zeta. split; [split; [reflexivity | vm_compute; reflexivity] |].
  apply (Initiate_then_find "u1" (Scenario.to_bob 60) no_faults Scenario.open_offer);
    [reflexivity | vm_compute; reflexivity].
Defined.

(** X16: a record just initiated shows in the listing of its sender and in
    the listing of nobody else. *)
Theorem Initiate_then_list senderID req f w x userID rows :
  fst (InitiateTransfer senderID req f w) = Ok x ->
  fst (GetUserTransfers userID no_faults (snd (InitiateTransfer senderID req f w)))
    = Ok rows ->
  (x ∈ rows <-> userID = senderID).
Proof.
  intros Hr Hlist.
  apply InitiateTransfer_Ok in Hr as (u & _ & _ & Hx & Hrows).
  assert (Transfer.SenderID x = senderID) as Hsender by (rewrite Hx; reflexivity).
  unfold GetUserTransfers in Hlist. rewrite FindBySenderID_run in Hlist.
  cbn [fst no_faults] in Hlist. injection Hlist as <-.
  rewrite merge_sort_Permutation, list_elem_of_filter, Hrows, Hsender.
  split; [intros [-> _]; reflexivity | intros ->].
  split; [reflexivity |]. apply elem_of_app. right. apply list_elem_of_singleton.
  reflexivity.
Qed.

Lemma Initiate_then_list_witness :
  let w := Scenario.open_offer in
  let req := Scenario.to_bob 60 in
  let x := new_transfer "u1" Scenario.ann req (clock w) (ticks w) in
  let rows := [x; Scenario.gift "pending" 1800000000000000000] in
  (fst (InitiateTransfer "u1" req no_faults w) = Ok x /\
   fst (GetUserTransfers "u1" no_faults (snd (InitiateTransfer "u1" req no_faults w)))
     = Ok rows) /\
  (x ∈ rows <-> "u1" = "u1").
Proof.
  cbv zeta. split; [split; vm_compute; reflexivity |].
  apply (Initiate_then_list "u1" (Scenario.to_bob 60) no_faults Scenario.open_offer);
    vm_compute; reflexivity.
Defined.

Lemma NoDup_key_eq {A B} (key : A -> B) (rows : list A) r x :
  NoDup (key <$> rows) -> r ∈ rows -> x ∈ rows -> key r = key x -> r = x.
Proof.
  induction rows as [| r0 rows IH]; intros Hnd Hr Hx Heq.
  - apply elem_of_nil in Hr. contradiction.
  - cbn in Hnd. apply NoDup_cons in Hnd as [Hnotin Hnd].
    apply elem_of_cons in Hr as [-> | Hr]; apply elem_of_cons in Hx as [-> | Hx].
    + reflexivity.
    + exfalso. apply Hnotin. rewrite Heq. apply list_elem_of_fmap_2, Hx.
    + exfalso. apply Hnotin. rewrite <- Heq. apply list_elem_of_fmap_2, Hr.
    + apply IH; assumption.
Qed.

Lemma find_key {A} (key : A -> string) (rows : list A) x :
  NoDup (key <$> rows) -> x ∈ rows ->
  find (fun r => String.eqb (key r) (key x)) rows = Some x.
Proof.
  intros Hnd Hx.
  destruct (find (fun r => String.eqb (key r) (key x)) rows) as [y |] eqn:Hfind.
  - apply find_some in Hfind as [Hy Heq]. apply String.eqb_eq in Heq.
    apply list_elem_of_In in Hy. f_equal. eapply NoDup_key_eq; eassumption.
  - exfalso. apply list_elem_of_In in Hx.
    pose proof (find_none _ _ Hfind x Hx) as Hne. cbn in Hne.
    rewrite String.eqb_refl in Hne. discriminate.
Qed.

(** X17: the claim token as a credential.  On a table where ids and tokens
    are unique, every stored row is what the lookup by its token returns,
    and what the lookup by its id returns; a token that no row carries is
    answered with "record not found".  Neither lookup changes the table or
    the accounts. *)
Theorem lookup_by_key f w :
  f DbFirst = false ->
  keyed w ->
  (forall x, x ∈ transfers w ->
     fst (FindByToken (Transfer.Token x) f w) = Ok x /\
     fst (FindByID (Transfer.ID x) f w) = Ok x) /\
  (forall token, (forall r, r ∈ transfers w -> Transfer.Token r <> token) ->
     fst (FindByToken token f w) = Err ErrRecordNotFound) /\
  (forall token, snd (FindByToken token f w) = w).
Proof.
  intros Hf [HID HTok]. split; [| split].
  - intros x Hx. rewrite FindByToken_run, FindByID_run, Hf. cbn [fst]. unfold row.
    rewrite (find_key Transfer.Token _ _ HTok Hx), (find_key Transfer.ID _ _ HID Hx).
    auto.
  - intros token Hnone. rewrite FindByToken_run, Hf. cbn [fst].
    destruct (find _ _) as [y |] eqn:Hfind; [| reflexivity].
    apply find_some in Hfind as [Hy Heq]. apply String.eqb_eq in Heq.
    apply list_elem_of_In in Hy. destruct (Hnone y Hy Heq).
  - intros token. rewrite FindByToken_run. reflexivity.
Qed.

Lemma lookup_by_key_witness :
  let w := Scenario.open_offer in
  (no_faults DbFirst = false /\ keyed w) /\
  ((forall x, x ∈ transfers w ->
      fst (FindByToken (Transfer.Token x) no_faults w) = Ok x /\
      fst (FindByID (Transfer.ID x) no_faults w) = Ok x) /\
   (forall token, (forall r, r ∈ transfers w -> Transfer.Token r <> token) ->
      fst (FindByToken token no_faults w) = Err ErrRecordNotFound) /\
   (forall token, snd (FindByToken token no_faults w) = w)).
Proof.
  assert (keyed Scenario.open_offer) as H.
  { split; cbn; apply NoDup_singleton. }
  cbv zeta. split; [split; [reflexivity | exact H] |].
  apply (lookup_by_key no_faults Scenario.open_offer eq_refl H).
Defined.

(** ** The two phases together *)

(** X18: offer, then claim.  On a table with the constraints of the schema,
    completing the id that a successful initiation returned, nothing
    failing, ends well: the sender's balance is what it was at initiation
    less the points of the request, which is not below zero, and the row is
    [completed]. *)
Theorem Initiate_then_Complete senderID req f w x u :
  indexed w = true ->
  fst (InitiateTransfer senderID req f w) = Ok x ->
  users w !! senderID = Some u ->
  in_int (User.Points u) ->
  let w' := snd (InitiateTransfer senderID req f w) in
  let r := CompleteTransfer (Transfer.ID x) no_faults w' in
  balance senderID w' = Some (User.Points u) /\
  fst r = Ok tt /\
  balance senderID (snd r) = Some (User.Points u - TransferRequest.Points req) /\
  0 <= User.Points u - TransferRequest.Points req /\
  Transfer.Status <$> row (Transfer.ID x) (snd r) = Some "completed".
Proof.
  intros Hix Hr Hu Hint.
  pose proof (Initiate_row _ _ _ _ _ Hix Hr) as Hrow.
  apply InitiateTransfer_created in Hr as (u' & Hu' & Hvalid & Hx & _ & Hworld).
  assert (u' = u) as -> by congruence.
  apply validateTransfer_Ok in Hvalid as (Hle & _ & Hpos).
  assert (Transfer.SenderID x = senderID) as Hsender by (rewrite Hx; reflexivity).
  assert (Transfer.Points x = TransferRequest.Points req) as Hpoints
    by (rewrite Hx; reflexivity).
  cbv zeta. set (w' := snd (InitiateTransfer senderID req f w)) in *.
  assert (users w' = users w) as Husers by (rewrite Hworld; reflexivity).
  assert (fst (FindByID (Transfer.ID x) no_faults w') = Ok x) as Hfind
    by (apply FindByID_Ok; auto).
  assert (fst (getUser (Transfer.SenderID x) no_faults w') = Ok u) as Hget.
  { apply getUser_Ok. rewrite Husers, Hsender. auto. }
  destruct (CompleteTransfer_completes _ _ _ _ _ Hfind Hget) as (H1 & H2 & H3 & _);
    [lia | reflexivity | reflexivity |].
  rewrite Hsender in H2. rewrite H1, H2, H3.
  rewrite int_sub_debit by (auto; lia). rewrite Hpoints.
  unfold balance at 1. rewrite Husers, Hu.
  repeat split. lia.
Qed.

Lemma Initiate_then_Complete_witness :
  let w := Scenario.open_offer in
  let req := Scenario.to_bob 60 in
  let x := new_transfer "u1" Scenario.ann req (clock w) (ticks w) in
  let w' := snd (InitiateTransfer "u1" req no_faults w) in
  let r := CompleteTransfer (Transfer.ID x) no_faults w' in
  (indexed w = true /\
   fst (InitiateTransfer "u1" req no_faults w) = Ok x /\
   users w !! "u1" = Some Scenario.ann /\
   in_int 100) /\
  (balance "u1" w' = Some 100 /\
   fst r = Ok tt /\
   balance "u1" (snd r) = Some (100 - 60) /\
   0 <= 100 - 60 /\
   Transfer.Status <$> row (Transfer.ID x) (snd r) = Some "completed").
Proof.
  cbv zeta. split.
  - repeat split; try (vm_compute; reflexivity); vm_compute; discriminate.
  - apply (Initiate_then_Complete "u1" (Scenario.to_bob 60) no_faults
             Scenario.open_offer _ Scenario.ann);
      try (vm_compute; reflexivity). split; vm_compute; discriminate.
Defined.

Lemma find_saved_other other (rows : list Transfer.t) x x' :
  Transfer.ID x' = Transfer.ID x -> Transfer.ID x <> other ->
  find (fun r => String.eqb (Transfer.ID r) other)
    (map (fun r => if String.eqb (Transfer.ID r) (Transfer.ID x) then x' else r) rows)
  = find (fun r => String.eqb (Transfer.ID r) other) rows.
Proof.
  intros HID Hne. induction rows as [| r rows IH]; [reflexivity |].
  cbn [map find].
  destruct (String.eqb_spec (Transfer.ID r) (Transfer.ID x)) as [Heq | Hneq].
  - rewrite HID, Heq. apply String.eqb_neq in Hne. rewrite Hne. exact IH.
  - destruct (String.eqb (Transfer.ID r) other); [reflexivity | exact IH].
Qed.

(** Completing one id leaves the row found under another id as it is. *)
Lemma Complete_row_other transferID other f w :
  transferID <> other ->
  row other (snd (CompleteTransfer transferID f w)) = row other w.
Proof.
  intros Hne. unfold row.
  destruct (Complete_table transferID f w) as [-> | (x & x' & Hrow & Him & _ & ->)];
    [reflexivity |].
  apply find_saved_other; [injection Him; auto |].
  rewrite (row_ID _ _ _ Hrow). exact Hne.
Qed.

(** X19: two offers against one balance.  Two rows of the same sender, the
    balance covering the first but not both: completing the first ends
    well, completing the second then ends with "sender no longer has
    sufficient points".  The sender is debited the points of the first row
    only, the first row is [completed] and the second [failed]. *)
Theorem Complete_second_offer_fails id1 id2 w x1 x2 u :
  id1 <> id2 ->
  row id1 w = Some x1 ->
  row id2 w = Some x2 ->
  Transfer.SenderID x2 = Transfer.SenderID x1 ->
  users w !! Transfer.SenderID x1 = Some u ->
  in_int (User.Points u) ->
  0 <= Transfer.Points x1 <= User.Points u ->
  User.Points u - Transfer.Points x1 < Transfer.Points x2 ->
  let first := CompleteTransfer id1 no_faults w in
  let second := CompleteTransfer id2 no_faults (snd first) in
  fst first = Ok tt /\
  fst second = Err (New "sender no longer has sufficient points") /\
  balance (Transfer.SenderID x1) (snd second)
    = Some (User.Points u - Transfer.Points x1) /\
  Transfer.Status <$> row id1 (snd second) = Some "completed" /\
  Transfer.Status <$> row id2 (snd second) = Some "failed".
Proof.
  intros Hne Hrow1 Hrow2 Hsame Hu Hint Hp1 Hp2. cbv zeta.
  assert (fst (FindByID id1 no_faults w) = Ok x1) as Hfind1
    by (apply FindByID_Ok; auto).
  assert (fst (getUser (Transfer.SenderID x1) no_faults w) = Ok u) as Hget1
    by (apply getUser_Ok; auto).
  destruct (CompleteTransfer_completes _ _ _ _ _ Hfind1 Hget1)
    as (Hr1 & Hb1 & Hrow1' & _); [lia | reflexivity | reflexivity |].
  set (w1 := snd (CompleteTransfer id1 no_faults w)) in *.
  rewrite int_sub_debit in Hb1 by (auto; lia).
  unfold balance in Hb1.
  destruct (users w1 !! Transfer.SenderID x1) as [u1 |] eqn:Hu1; [| discriminate].
  cbn in Hb1. injection Hb1 as Hpoints1.
  assert (fst (FindByID id2 no_faults w1) = Ok x2) as Hfind2.
  { apply FindByID_Ok. split; [reflexivity |]. subst w1.
    rewrite Complete_row_other by exact Hne. exact Hrow2. }
  assert (fst (getUser (Transfer.SenderID x2) no_faults w1) = Ok u1) as Hget2.
  { apply getUser_Ok. rewrite Hsame. auto. }
  destruct (CompleteTransfer_fails _ _ _ _ _ Hfind2 Hget2)
    as (Hr2 & Husers2 & _ & Hrow2' & _); [lia |].
  split; [exact Hr1 |]. split; [exact Hr2 |]. split; [| split].
  - unfold balance. rewrite Husers2, Hu1. cbn. congruence.
  - rewrite Complete_row_other by auto. fold w1. rewrite Hrow1'. reflexivity.
  - rewrite (Hrow2' eq_refl). reflexivity.
Qed.

Lemma Complete_second_offer_fails_witness :
  let x1 := Race.first_offer in
  let x2 := Race.second_offer in
  let w := Race.world in
  let first := CompleteTransfer "transfer_1" no_faults w in
  let second := CompleteTransfer "transfer_2" no_faults (snd first) in
  ("transfer_1" <> "transfer_2" /\
   row "transfer_1" w = Some x1 /\
   row "transfer_2" w = Some x2 /\
   Transfer.SenderID x2 = Transfer.SenderID x1 /\
   users w !! "u1" = Some Scenario.ann /\
   in_int 100 /\ 0 <= 60 <= 100 /\ 100 - 60 < 60) /\
  (fst first = Ok tt /\
   fst second = Err (New "sender no longer has sufficient points") /\
   balance "u1" (snd second) = Some (100 - 60) /\
   Transfer.Status <$> row "transfer_1" (snd second) = Some "completed" /\
   Transfer.Status <$> row "transfer_2" (snd second) = Some "failed").
Proof.
  cbv zeta. split.
  - repeat split; try reflexivity; try discriminate; vm_compute; discriminate.
  - apply (Complete_second_offer_fails "transfer_1" "transfer_2" Race.world
             Race.first_offer Race.second_offer Scenario.ann);
      try reflexivity; try discriminate;
      repeat split; vm_compute; discriminate.
Defined.

(** ** The HTTP replies *)

(** X20: the reply to [POST /transfer/:id/complete].  When the service
    returns no error the reply is 200 with the success message; when the
    service returns an error, an unknown id included, the reply is 400 and
    carries the text of that error, one of the five of the service.  In
    both cases the handler adds nothing to what the service did to the
    world. *)
Theorem CompleteTransfer_reply transferID f w :
  let service := CompleteTransfer transferID f w in
  let reply := handlers.CompleteTransfer transferID f w in
  (fst service = Ok tt ->
   reply = (mkResponse 200
              (JObject [("message", JString "Transfer completed successfully");
                        ("success", JBool true)]),
            snd service)) /\
  (forall e, fst service = Err e ->
     exists msg,
       msg ∈ CompleteTransfer_errors /\ e = New msg /\
       reply = (mkResponse 400
                  (JObject [("error", JString msg); ("success", JBool false)]),
                snd service)).
Proof.
  cbv zeta. unfold handlers.CompleteTransfer, CompleteTransfer_errors.
  destruct (CompleteTransfer_completion transferID f w) as [e H | x e H1 H2
    | x u H1 H2 H3 | x u H1 H2 H3 H4 | x u H1 H2 H3 H4]; cbn [fst snd].
  5: destruct (f DbSave).
  all: split; [try discriminate; intros _; reflexivity |].
  all: try (intros e0 [=]; fail).
  all: intros e0 [= <-]; eexists; (split; [| split; reflexivity]); set_solver.
Qed.

(** X21: the reply to [POST /transfer].  A body that does not bind is
    answered 400 "Invalid request data", whatever the header; a bound body
    without the header [X-User-ID] is answered 401; in both cases the
    service is not called and the world is untouched.  Otherwise the
    service is called: a record it returns is answered 201 with all its
    fields, the claim token included, and an error it returns is answered
    400 with the text of that error, one of the five of the service. *)
Theorem InitiateTransfer_reply bound userID f w :
  let reply := handlers.InitiateTransfer bound userID f w in
  (forall e, bound = Err e ->
     code (fst reply) = 400 /\
     member "error" (body (fst reply)) = Some (JString "Invalid request data") /\
     snd reply = w) /\
  (forall req, bound = Ok req -> userID = "" ->
     code (fst reply) = 401 /\ snd reply = w) /\
  (forall req, bound = Ok req -> userID <> "" ->
     let service := InitiateTransfer userID req f w in
     (forall x, fst service = Ok x ->
        reply = (mkResponse 201
                   (JObject [("data", Transfer_json x);
                             ("message", JString "Transfer initiated successfully");
                             ("success", JBool true)]),
                 snd service) /\
        member "token" (Transfer_json x) = Some (JString (Transfer.Token x))) /\
     (forall e, fst service = Err e ->
        exists msg,
          msg ∈ InitiateTransfer_errors /\ e = New msg /\
          reply = (mkResponse 400
                     (JObject [("error", JString msg); ("success", JBool false)]),
                   snd service))).
Proof.
  cbv zeta. unfold handlers.InitiateTransfer. split; [| split].
  - intros e ->. repeat split.
  - intros req -> ->. repeat split.
  - intros req -> Hne. apply String.eqb_neq in Hne. rewrite Hne.
    pose proof (InitiateTransfer_Err userID req f w) as Herr.
    destruct (InitiateTransfer userID req f w) as [[x | e] w']; cbn [fst snd] in *.
    + split; [intros x0 [= <-]; split; reflexivity | intros e [=]].
    + split; [intros x [=] |]. intros e0 [= <-].
      destruct (Herr e eq_refl) as ((msg & Hin & ->) & _).
      exists msg. repeat split. exact Hin.
Qed.

(** X22: the last business rule is out of reach of the HTTP route.  The
    binding of the request admits only points of at least 1 ([min=1]); for
    such a request [InitiateTransfer] never answers "points must be greater
    than zero". *)
Theorem Initiate_bound_points senderID req f w :
  1 <= TransferRequest.Points req ->
  fst (InitiateTransfer senderID req f w)
    <> Err (New "points must be greater than zero").
Proof.
  intros Hmin.
  destruct (InitiateTransfer_initiation senderID req f w) as [e' H | u e' H1 H2
    | u e' H1 H2 x0 w1 H3 | u H1 H2 x0 w1 H3 H4]; cbn [fst]; try discriminate.
  intros [= ->]. unfold validateTransfer in H2.
  destruct (_ <? _); [discriminate |].
  destruct (String.eqb _ _); [discriminate |].
  destruct (Z.leb_spec (TransferRequest.Points req) 0); [lia | discriminate].
Qed.

Lemma Initiate_bound_points_witness :
  1 <= TransferRequest.Points (Scenario.to_self 1) /\
  fst (InitiateTransfer "u1" (Scenario.to_self 1) no_faults Scenario.open_offer)
    <> Err (New "points must be greater than zero").
Proof.
  split; [vm_compute; discriminate |].
  apply (Initiate_bound_points "u1" (Scenario.to_self 1) no_faults Scenario.open_offer).
  vm_compute. discriminate.
Defined.

(** X23: the reply to [GET /transfers/:userId] when the query fails: 500
    with a fixed text and no record at all.  Failing or not, the handler
    changes nothing but the log of calls. *)
Theorem GetTransfers_failure userID f w :
  snd (GetTransfers userID f w) = log (SqlSelectBySender userID) w /\
  (f DbFind = true ->
   fst (GetTransfers userID f w)
     = mkResponse 500
         (JObject [("error", JString "Failed to fetch transfers");
                   ("success", JBool false)]) /\
   member "data" (body (fst (GetTransfers userID f w))) = None) /\
  (code (fst (GetTransfers userID f w)) = 200 <-> f DbFind = false).
Proof.
  unfold GetTransfers, GetUserTransfers. rewrite FindBySenderID_run.
  destruct (f DbFind); cbn [fst snd code body]; repeat split; try discriminate;
    unfold StatusInternalServerError, StatusOK; intros; discriminate || reflexivity.
Qed.

(** ** Configuration *)

Lemma getEnv_nonempty key defaultValue env :
  defaultValue <> "" -> config.getEnv key defaultValue env <> "".
Proof.
  intros Hd. unfold config.getEnv.
  destruct (String.eqb_spec (config.Getenv key env) ""); assumption.
Qed.

(** X24: [getEnv] returns the value of a variable that is set to a
    non-empty string; a variable that is not set, or set to the empty
    string, yields the default.  With a non-empty default the result is
    never empty. *)
Theorem getEnv_fallback key defaultValue (env : config.Env) :
  (forall v, env !! key = Some v -> v <> "" ->
     config.getEnv key defaultValue env = v) /\
  (env !! key = None \/ env !! key = Some "" ->
     config.getEnv key defaultValue env = defaultValue) /\
  (defaultValue <> "" -> config.getEnv key defaultValue env <> "").
Proof.
  split; [| split].
  - intros v Hv Hne. unfold config.getEnv, config.Getenv. rewrite Hv. cbn.
    apply String.eqb_neq in Hne. rewrite Hne. reflexivity.
  - intros [H | H]; unfold config.getEnv, config.Getenv; rewrite H; reflexivity.
  - apply getEnv_nonempty.
Qed.

(** X25: whatever the environment, [LoadConfig] leaves no setting empty
    except the two Gmail credentials, whose default is the empty string:
    port, database coordinates, the URL of the Auth service, the sender
    address, the SMTP host and port, the front-end URL and the allowed
    origins always have a value. *)
Theorem LoadConfig_settings (env : config.Env) name value :
  (name, value) ∈ config.settings (config.LoadConfig env) ->
  name <> "GMAIL_ADDRESS" ->
  name <> "GMAIL_APP_PASSWORD" ->
  value <> "".
Proof.
  unfold config.settings, config.LoadConfig. cbn. intros Hin Hn1 Hn2.
  repeat (apply elem_of_cons in Hin as [[= -> ->] | Hin];
          [first [contradiction | apply getEnv_nonempty; discriminate] |]).
  apply elem_of_nil in Hin. contradiction.
Qed.

Lemma LoadConfig_settings_witness :
  let env : config.Env := {[ "PORT" := "9000"; "DB_HOST" := "" ]} in
  (("PORT", "9000") ∈ config.settings (config.LoadConfig env) /\
   "PORT" <> "GMAIL_ADDRESS" /\ "PORT" <> "GMAIL_APP_PASSWORD") /\
  "9000" <> "".
Proof.
  assert (("PORT", "9000") ∈ config.settings
            (config.LoadConfig {[ "PORT" := "9000"; "DB_HOST" := "" ]})) as H.
  { vm_compute. left. }
  cbv zeta. split; [split; [exact H | split; discriminate] |].
  apply (LoadConfig_settings {[ "PORT" := "9000"; "DB_HOST" := "" ]} "PORT" "9000" H);
    discriminate.
Defined.
